(** * SasaCam: the identity store, the session status and the face-swap loop

    A shallow embedding of [App.tsx], [components/CameraFeed.tsx] and
    [services/geminiService.ts].

    - [Js]      : the JavaScript string operations the code relies on.
    - [Gemini]  : the inference client ([refineIdentity], [performFaceSwap]).
    - [Sasa]    : the two React components as one transition system: the hook
                  state of [App] and [CameraFeed], the three effects of
                  [CameraFeed] with their dependency arrays, and the
                  asynchronous completions (swap responses, image loads,
                  camera acquisition, refinement) as events.

    The page runs on one thread.  An event (a click, a timer tick, a
    promise that settles) runs its handler; React then renders and runs
    the effects whose dependencies changed, and renders again if they
    changed the state, until nothing changes; only then is the next event
    taken.  [Sasa.step] is one such round.  Functions that [await] are
    split at the [await]: the part before it belongs to the event that
    called the function, the part after it is an event of its own. *)

From Stdlib Require Import List String Ascii Bool Arith Lia NArith DecimalString.
Import ListNotations.
Local Open Scope string_scope.
Local Open Scope list_scope.

Set Implicit Arguments.

(* ------------------------------------------------------------------ *)
(** ** JavaScript strings *)

Module Js.

(** [s.includes(c)] for a one-character needle. *)
Fixpoint includes (c : ascii) (s : string) : bool :=
  match s with
  | EmptyString => false
  | String a r => Ascii.eqb a c || includes c r
  end.

(** [s.split(c)] for a one-character separator: never the empty array. *)
Fixpoint split (c : ascii) (s : string) : list string :=
  match s with
  | EmptyString => [EmptyString]
  | String a r =>
      if Ascii.eqb a c then EmptyString :: split c r
      else match split c r with
           | h :: t => String a h :: t
           | [] => [String a EmptyString]
           end
  end.

(** [s.startsWith(p)]. *)
Definition startsWith (p s : string) : bool := String.prefix p s.

(** Truthiness of a [string | null | undefined] value: only a non-empty
    string is truthy. *)
Definition truthy (o : option string) : bool :=
  match o with
  | Some EmptyString => false
  | Some _ => true
  | None => false
  end.

(** [v || undefined]. *)
Definition orUndefined (o : option string) : option string :=
  if truthy o then o else None.

(** [n.toString()] for a non-negative integer. *)
Definition toString (n : N) : string := NilZero.string_of_uint (N.to_uint n).

Definition option_string_eqb (a b : option string) : bool :=
  match a, b with
  | Some x, Some y => String.eqb x y
  | None, None => true
  | _, _ => false
  end.

End Js.

(* ------------------------------------------------------------------ *)
(** ** services/geminiService.ts *)

Module Gemini.
Import Js.

(** One element of [contents.parts]. *)
Inductive Part :=
| InlineData (data mimeType : string)
| Text (text : string).

Record GenerateContent := {
  model : string;
  parts : list Part;
  systemInstruction : option string
}.

(** What [ai.models.generateContent] can come back with, as far as the two
    callers look at it: the call throws, or it returns a response whose
    [text] and [candidates] are as given.  A candidate is its
    [content.parts], [None] when that field is missing. *)
Inductive ResponsePart :=
| RText (t : string)
| RInline (data : string).

Inductive ApiResponse :=
| ApiThrows
| ApiReturns (text : option string)
             (candidates : option (list (option (list ResponsePart)))).

(** *** refineIdentity *)

Definition refineRequest (base64Image prompt : string) : GenerateContent :=
  {| model := "gemini-3-flash-preview";
     parts :=
       [ Text ("Enhance this identity for a professional virtual camera output. " ++ prompt)%string;
         InlineData base64Image "image/jpeg" ];
     systemInstruction :=
       Some "You are a face restoration expert. Describe the lighting and anatomical features clearly for a mapping engine." |}.

(** The value [refineIdentity] resolves with: [response.text], or [null]
    from the [catch]. *)
Definition refineIdentity (r : ApiResponse) : option string :=
  match r with
  | ApiThrows => None
  | ApiReturns text _ => text
  end.

(** *** performFaceSwap *)

(** [x.includes(',') ? x.split(',')[1] : x].  The second element exists
    whenever the string has a comma ([split_second]). *)
Definition clean (x : string) : string :=
  if includes "," x then nth 1 (split "," x) x else x.

(** The same expression under [?.] for the optional third argument. *)
Definition cleanOpt (x : option string) : option string :=
  match x with
  | Some s => Some (clean s)
  | None => None
  end.

Definition anchorLine : string :=
  "3. Image 3 is the PREVIOUS successful swap (Consistency Reference).".

Definition anchorConstraint : string :=
  "- Ensure the resulting face looks exactly like the face in Image 3 to maintain temporal consistency.".

(** The template literal of the instruction block, line by line;
    [hasPrevious] is the truthiness of [cleanPrevious]. *)
Definition nl : string := String "010" EmptyString.

Definition instruction (hasPrevious : bool) : string :=
  String.concat nl
    [ "ACTIVATE IDENTITY LOCK: ";
      "      1. Image 1 is the CURRENT real-time webcam frame (Source).";
      "      2. Image 2 is the TARGET persona identity (Identity).";
      "      " ++ (if hasPrevious then anchorLine else "");
      "      ";
      "      TASK: Replace ONLY the face in Image 1 with the features of Image 2. ";
      "      STRICT CONSTRAINTS:";
      "      - DO NOT change the background, hair, body, or clothing from Image 1.";
      "      - DO NOT change the lighting or head orientation from Image 1.";
      "      - ONLY morph the internal facial features (eyes, nose, mouth) to match Image 2.";
      "      " ++ (if hasPrevious then anchorConstraint else "");
      "      - Output ONLY the modified Image 1." ]%string.

Definition jpeg (data : string) : Part := InlineData data "image/jpeg".

(** The [parts] array as [performFaceSwap] builds it: two pushes after the
    array literal, the first one guarded by [if (cleanPrevious)]. *)
Definition swapParts (sourceBase64 targetBase64 : string)
                     (previousResultBase64 : option string) : list Part :=
  let cleanSource := clean sourceBase64 in
  let cleanTarget := clean targetBase64 in
  let cleanPrevious := cleanOpt previousResultBase64 in
  let parts := [ jpeg cleanSource; jpeg cleanTarget ] in
  let parts :=
    match cleanPrevious with
    | Some p => if truthy cleanPrevious then parts ++ [ jpeg p ] else parts
    | None => parts
    end in
  parts ++ [ Text (instruction (truthy cleanPrevious)) ].

Definition swapRequest (sourceBase64 targetBase64 : string)
                       (previousResultBase64 : option string) : GenerateContent :=
  {| model := "gemini-2.5-flash-image";
     parts := swapParts sourceBase64 targetBase64 previousResultBase64;
     systemInstruction := None |}.

(** The [for] loop over the first candidate's parts: the first part that
    carries [inlineData] is returned, re-enveloped as a PNG data URI. *)
Fixpoint firstInline (ps : list ResponsePart) : option string :=
  match ps with
  | [] => None
  | RInline d :: _ => Some ("data:image/png;base64," ++ d)%string
  | RText _ :: r => firstInline r
  end.

(** The value [performFaceSwap] resolves with.  [candidates[0]] of an empty
    array is [undefined], and reading [.content] of it throws into the
    [catch], which returns [null] like every other failure. *)
Definition swapResult (r : ApiResponse) : option string :=
  match r with
  | ApiThrows => None
  | ApiReturns _ None => None
  | ApiReturns _ (Some []) => None
  | ApiReturns _ (Some (None :: _)) => None
  | ApiReturns _ (Some (Some ps :: _)) => firstInline ps
  end.

End Gemini.

(* ------------------------------------------------------------------ *)
(** ** App.tsx and components/CameraFeed.tsx *)

Module Sasa.
Import Js Gemini.

(** *** types.ts *)

Inductive CameraStatus := INACTIVE | LOADING | ACTIVE | SWAPPING.

Inductive EmbeddingStatus := ready | processing | error.

Record Identity := {
  id : string;
  name : string;
  imageUrl : string;
  embeddingStatus : EmbeddingStatus
}.

Definition status_eqb (a b : CameraStatus) : bool :=
  match a, b with
  | INACTIVE, INACTIVE | LOADING, LOADING | ACTIVE, ACTIVE | SWAPPING, SWAPPING => true
  | _, _ => false
  end.

(** *** The values a [processFrame] closure captures

    [processFrame] is created inside the face-swap effect, so it sees
    [status], [identityBase64], [swappedFrame] and [isProcessing] as they
    were in the render the effect belongs to.  These four are also the
    effect's dependency array. *)
Record SwapDeps := {
  d_status : CameraStatus;
  d_identityBase64 : option string;
  d_swappedFrame : option string;
  d_isProcessing : bool
}.

Definition swapDeps_eqb (a b : SwapDeps) : bool :=
  status_eqb (d_status a) (d_status b)
  && option_string_eqb (d_identityBase64 a) (d_identityBase64 b)
  && option_string_eqb (d_swappedFrame a) (d_swappedFrame b)
  && Bool.eqb (d_isProcessing a) (d_isProcessing b).

(** *** The state

    The hook state of [App] and of [CameraFeed], what React remembers
    about the effects (the dependency values of the last run and the
    interval the face-swap effect installed), and the part of the outside
    world the components have started and not yet heard back from.
    [ProcessingState] (face detected, frame rate) only feeds the overlay
    and is left out. *)
Record World := mkWorld {
  (* App *)
  identities : list Identity;
  activeIdentityId : option string;
  cameraStatus : CameraStatus;
  isUploading : bool;
  (* CameraFeed *)
  stream : option nat;
  swappedFrame : option string;
  isProcessing : bool;
  identityBase64 : option string;
  (* effects *)
  depUrl : option string;
  depStatus : CameraStatus;
  depSwap : SwapDeps;
  interval : option SwapDeps;
  (* outside world *)
  outstanding : list GenerateContent;      (* swap requests in flight *)
  imageLoads : list string;                (* [img.src = url] not yet loaded *)
  cameraRequests : nat;                    (* pending [getUserMedia] calls *)
  refinements : list (string * GenerateContent); (* pending [refineIdentity], with [newIdentity.id] *)
  canvas2d : option string                 (* what drawing the video and [toDataURL] gives now;
                                              [None] when [getContext('2d')] is null *)
}.

Definition set_identities v w := mkWorld v (activeIdentityId w) (cameraStatus w) (isUploading w)
  (stream w) (swappedFrame w) (isProcessing w) (identityBase64 w)
  (depUrl w) (depStatus w) (depSwap w) (interval w)
  (outstanding w) (imageLoads w) (cameraRequests w) (refinements w) (canvas2d w).
Definition set_activeIdentityId v w := mkWorld (identities w) v (cameraStatus w) (isUploading w)
  (stream w) (swappedFrame w) (isProcessing w) (identityBase64 w)
  (depUrl w) (depStatus w) (depSwap w) (interval w)
  (outstanding w) (imageLoads w) (cameraRequests w) (refinements w) (canvas2d w).
Definition set_cameraStatus v w := mkWorld (identities w) (activeIdentityId w) v (isUploading w)
  (stream w) (swappedFrame w) (isProcessing w) (identityBase64 w)
  (depUrl w) (depStatus w) (depSwap w) (interval w)
  (outstanding w) (imageLoads w) (cameraRequests w) (refinements w) (canvas2d w).
Definition set_isUploading v w := mkWorld (identities w) (activeIdentityId w) (cameraStatus w) v
  (stream w) (swappedFrame w) (isProcessing w) (identityBase64 w)
  (depUrl w) (depStatus w) (depSwap w) (interval w)
  (outstanding w) (imageLoads w) (cameraRequests w) (refinements w) (canvas2d w).
Definition set_stream v w := mkWorld (identities w) (activeIdentityId w) (cameraStatus w) (isUploading w)
  v (swappedFrame w) (isProcessing w) (identityBase64 w)
  (depUrl w) (depStatus w) (depSwap w) (interval w)
  (outstanding w) (imageLoads w) (cameraRequests w) (refinements w) (canvas2d w).
Definition set_swappedFrame v w := mkWorld (identities w) (activeIdentityId w) (cameraStatus w) (isUploading w)
  (stream w) v (isProcessing w) (identityBase64 w)
  (depUrl w) (depStatus w) (depSwap w) (interval w)
  (outstanding w) (imageLoads w) (cameraRequests w) (refinements w) (canvas2d w).
Definition set_isProcessing v w := mkWorld (identities w) (activeIdentityId w) (cameraStatus w) (isUploading w)
  (stream w) (swappedFrame w) v (identityBase64 w)
  (depUrl w) (depStatus w) (depSwap w) (interval w)
  (outstanding w) (imageLoads w) (cameraRequests w) (refinements w) (canvas2d w).
Definition set_identityBase64 v w := mkWorld (identities w) (activeIdentityId w) (cameraStatus w) (isUploading w)
  (stream w) (swappedFrame w) (isProcessing w) v
  (depUrl w) (depStatus w) (depSwap w) (interval w)
  (outstanding w) (imageLoads w) (cameraRequests w) (refinements w) (canvas2d w).
Definition set_deps u s d w := mkWorld (identities w) (activeIdentityId w) (cameraStatus w) (isUploading w)
  (stream w) (swappedFrame w) (isProcessing w) (identityBase64 w)
  u s d (interval w)
  (outstanding w) (imageLoads w) (cameraRequests w) (refinements w) (canvas2d w).
Definition set_interval v w := mkWorld (identities w) (activeIdentityId w) (cameraStatus w) (isUploading w)
  (stream w) (swappedFrame w) (isProcessing w) (identityBase64 w)
  (depUrl w) (depStatus w) (depSwap w) v
  (outstanding w) (imageLoads w) (cameraRequests w) (refinements w) (canvas2d w).
Definition set_outstanding v w := mkWorld (identities w) (activeIdentityId w) (cameraStatus w) (isUploading w)
  (stream w) (swappedFrame w) (isProcessing w) (identityBase64 w)
  (depUrl w) (depStatus w) (depSwap w) (interval w)
  v (imageLoads w) (cameraRequests w) (refinements w) (canvas2d w).
Definition set_imageLoads v w := mkWorld (identities w) (activeIdentityId w) (cameraStatus w) (isUploading w)
  (stream w) (swappedFrame w) (isProcessing w) (identityBase64 w)
  (depUrl w) (depStatus w) (depSwap w) (interval w)
  (outstanding w) v (cameraRequests w) (refinements w) (canvas2d w).
Definition set_cameraRequests v w := mkWorld (identities w) (activeIdentityId w) (cameraStatus w) (isUploading w)
  (stream w) (swappedFrame w) (isProcessing w) (identityBase64 w)
  (depUrl w) (depStatus w) (depSwap w) (interval w)
  (outstanding w) (imageLoads w) v (refinements w) (canvas2d w).
Definition set_refinements v w := mkWorld (identities w) (activeIdentityId w) (cameraStatus w) (isUploading w)
  (stream w) (swappedFrame w) (isProcessing w) (identityBase64 w)
  (depUrl w) (depStatus w) (depSwap w) (interval w)
  (outstanding w) (imageLoads w) (cameraRequests w) v (canvas2d w).
Definition set_canvas2d v w := mkWorld (identities w) (activeIdentityId w) (cameraStatus w) (isUploading w)
  (stream w) (swappedFrame w) (isProcessing w) (identityBase64 w)
  (depUrl w) (depStatus w) (depSwap w) (interval w)
  (outstanding w) (imageLoads w) (cameraRequests w) (refinements w) v.

(** [xs] without its [k]-th element. *)
Fixpoint dropNth {A} (k : nat) (xs : list A) : list A :=
  match xs, k with
  | [], _ => []
  | _ :: r, 0 => r
  | x :: r, S k' => x :: dropNth k' r
  end.

(** *** App.tsx *)

Definition INITIAL_IDENTITIES : list Identity :=
  [ {| id := "1"; name := "Executive Professional";
       imageUrl := "https://images.unsplash.com/photo-1560250097-0b93528c311a?auto=format&fit=crop&q=80&w=400&h=400";
       embeddingStatus := ready |};
    {| id := "2"; name := "Creative Director";
       imageUrl := "https://images.unsplash.com/photo-1573496359142-b8d87734a5a2?auto=format&fit=crop&q=80&w=400&h=400";
       embeddingStatus := ready |} ].

(** [i.id === activeIdentityId]: never true for [null]. *)
Definition isActive (a : option string) (i : Identity) : bool :=
  match a with
  | Some x => String.eqb (id i) x
  | None => false
  end.

(** [identities.find(i => i.id === activeIdentityId)]. *)
Definition activeIdentity (w : World) : option Identity :=
  find (isActive (activeIdentityId w)) (identities w).

(** The prop [activeIdentityUrl={activeIdentity?.imageUrl}]. *)
Definition activeIdentityUrl (w : World) : option string :=
  option_map imageUrl (activeIdentity w).

Definition toggleCamera (w : World) : World :=
  set_cameraStatus
    (match cameraStatus w with INACTIVE => ACTIVE | _ => INACTIVE end) w.

Definition toggleSwap (w : World) : World :=
  match cameraStatus w with
  | INACTIVE => w
  | SWAPPING => set_cameraStatus ACTIVE w
  | _ => set_cameraStatus SWAPPING w
  end.

(** [disabled={cameraStatus === CameraStatus.INACTIVE || !activeIdentityId}]
    on the activate-persona button. *)
Definition swapDisabled (w : World) : bool :=
  status_eqb (cameraStatus w) INACTIVE || negb (truthy (activeIdentityId w)).

(** A click on the activate-persona button: a disabled button does not
    fire [onClick]. *)
Definition clickSwap (w : World) : World :=
  if swapDisabled w then w else toggleSwap w.

Definition handleIdentitySelect (i : string) (w : World) : World :=
  set_activeIdentityId
    (if option_string_eqb (Some i) (activeIdentityId w) then None else Some i) w.

Definition deleteIdentity (i : string) (w : World) : World :=
  let w1 := set_identities (filter (fun x => negb (String.eqb (id x) i)) (identities w)) w in
  if option_string_eqb (activeIdentityId w) (Some i)
  then set_activeIdentityId None w1 else w1.

(** [handleFileUpload] up to its [await]: the file has been read as the
    data URI [base64Data] ([readAsDataURL] always yields one, so the
    [split(',')[1]] exists) and [Date.now()] is [now]. *)
Definition handleFileUpload (fileName base64Data : string) (now : N) (w : World) : World :=
  let base64 := nth 1 (split "," base64Data) "" in
  let newIdentity :=
    {| id := toString now;
       name := nth 0 (split "." fileName) "";
       imageUrl := base64Data;
       embeddingStatus := processing |} in
  let w1 := set_isUploading true w in
  let w2 := set_identities (identities w1 ++ [newIdentity]) w1 in
  set_refinements
    (refinements w2 ++
       [(id newIdentity, refineRequest base64 "Map facial features for real-time overlay.")]) w2.

Definition markReady (newId : string) (idty : Identity) : Identity :=
  if String.eqb (id idty) newId
  then {| id := id idty; name := name idty; imageUrl := imageUrl idty;
          embeddingStatus := ready |}
  else idty.

(** [handleFileUpload] after its [await]: the value [refineIdentity]
    resolved with is not looked at. *)
Definition uploadRefined (k : nat) (resolved : option string) (w : World) : World :=
  match nth_error (refinements w) k with
  | None => w
  | Some (newId, _) =>
      let w1 := set_refinements (dropNth k (refinements w)) w in
      let w2 := set_identities (map (markReady newId) (identities w1)) w1 in
      set_isUploading false w2
  end.

(** *** components/CameraFeed.tsx *)

(** How the [Image] that [urlToBase64] creates ends: [onload] with what
    [canvas.toDataURL('image/jpeg')] gives ([None] when the canvas has no
    2d context), or [onerror]. *)
Inductive ImageOutcome :=
| Loaded (jpegDataUrl : option string)
| Failed.

(** The promise [urlToBase64] returns is either resolved before the
    function returns, or waits for the image. *)
Inductive Pending :=
| Resolved (v : string)
| AwaitsImage (url : string).

Definition urlToBase64 (url : string) : Pending :=
  if startsWith "data:" url then Resolved url else AwaitsImage url.

(** What a waiting promise resolves with. *)
Definition imageResolves (url : string) (o : ImageOutcome) : string :=
  match o with
  | Loaded (Some dataUrl) => dataUrl
  | Loaded None => url
  | Failed => url
  end.

Definition swapDeps (w : World) : SwapDeps :=
  {| d_status := cameraStatus w;
     d_identityBase64 := identityBase64 w;
     d_swappedFrame := swappedFrame w;
     d_isProcessing := isProcessing w |}.

(** [useEffect(..., [activeIdentityUrl])].  A promise that is already
    resolved runs its [then] before any other event is handled. *)
Definition identityEffect (url : option string) (w : World) : World :=
  match url with
  | Some u =>
      if truthy url then
        match urlToBase64 u with
        | Resolved v => set_identityBase64 (Some v) w
        | AwaitsImage u' => set_imageLoads (imageLoads w ++ [u']) w
        end
      else set_swappedFrame None (set_identityBase64 None w)
  | None => set_swappedFrame None (set_identityBase64 None w)
  end.

(** [useEffect(..., [status])]: [setupCamera] is started, or the stream and
    the swapped frame are dropped.  Stopping the tracks acts on the device
    only and is not part of the state. *)
Definition cameraEffect (status : CameraStatus) (w : World) : World :=
  if negb (status_eqb status INACTIVE)
  then set_cameraRequests (S (cameraRequests w)) w
  else set_swappedFrame None (set_stream None w).

(** [setupCamera] after its [await]: the stream is stored, or the error is
    logged. *)
Definition cameraSettled (r : option nat) (w : World) : World :=
  match cameraRequests w with
  | 0 => w
  | S n =>
      let w1 := set_cameraRequests n w in
      match r with
      | Some s => set_stream (Some s) w1
      | None => w1
      end
  end.

(** [videoRef.current]: the video element is rendered unless the status is
    INACTIVE.  The canvas is always rendered. *)
Definition videoRef (w : World) : bool := negb (status_eqb (cameraStatus w) INACTIVE).
Definition canvasRef (w : World) : bool := true.

(** A [string | null] value where the code has already excluded null. *)
Definition asString (o : option string) : string :=
  match o with
  | Some s => s
  | None => ""
  end.

(** [processFrame] up to its [await], with the closure values [c].  Past
    the first guard [identityBase64] is a non-empty string. *)
Definition processFrame (c : SwapDeps) (w : World) : World :=
  if negb (status_eqb (d_status c) SWAPPING)
     || negb (truthy (d_identityBase64 c))
     || d_isProcessing c
  then w
  else if negb (videoRef w) || negb (canvasRef w) then w
  else
    match canvas2d w with
    | Some sourceBase64 =>
        set_outstanding
          (outstanding w ++
             [swapRequest sourceBase64 (asString (d_identityBase64 c))
                          (orUndefined (d_swappedFrame c))])
          (set_isProcessing true w)
    | None =>
        (* no 2d context: [finally] runs at once *)
        set_isProcessing false (set_isProcessing true w)
    end.

(** [processFrame] after its [await], for the [k]-th request in flight,
    which [performFaceSwap] resolved with [result]. *)
Definition processFrameResumes (k : nat) (result : option string) (w : World) : World :=
  match nth_error (outstanding w) k with
  | None => w
  | Some _ =>
      let w1 := set_outstanding (dropNth k (outstanding w)) w in
      let w2 := if truthy result then set_swappedFrame result w1 else w1 in
      set_isProcessing false w2
  end.

(** The face-swap effect, [useEffect(..., [status, identityBase64,
    swappedFrame, isProcessing])].  Its cleanup clears the interval of the
    previous run, so the interval of the state is always the one of the
    last run. *)
Definition swapEffect (c : SwapDeps) (w : World) : World :=
  if status_eqb (d_status c) SWAPPING && truthy (d_identityBase64 c)
  then set_interval (Some c) (processFrame c w)
  else set_interval None (set_swappedFrame None w).

(** One render and commit: every effect whose dependencies differ from
    those of the last render runs, in the order of the source, with the
    values of this render; their state updates are applied as they come. *)
Definition pass (w : World) : World :=
  let url := activeIdentityUrl w in
  let st := cameraStatus w in
  let c := swapDeps w in
  let w1 := if option_string_eqb url (depUrl w) then w else identityEffect url w in
  let w2 := if status_eqb st (depStatus w) then w1 else cameraEffect st w1 in
  let w3 := if swapDeps_eqb c (depSwap w) then w2 else swapEffect c w2 in
  set_deps url st c w3.

(** Nothing is left to run: the dependencies of the last render are the
    current values. *)
Definition settled (w : World) : bool :=
  option_string_eqb (activeIdentityUrl w) (depUrl w)
  && status_eqb (cameraStatus w) (depStatus w)
  && swapDeps_eqb (swapDeps w) (depSwap w).

(** React renders again as long as an effect changed the state.  Three
    renders always reach a state in which nothing is left to run
    ([settle_settled]). *)
Fixpoint settleN (fuel : nat) (w : World) : World :=
  match fuel with
  | 0 => w
  | S n => if settled w then w else settleN n (pass w)
  end.

Definition settle (w : World) : World := settleN 4 w.

(** *** Events *)

Inductive Event :=
| ClickPower                                         (* the power button: [toggleCamera] *)
| ClickSwap                                          (* the activate-persona button *)
| ClickCard (i : string)                             (* an identity card: [handleIdentitySelect] *)
| ClickDelete (i : string)                           (* the trash button of a card *)
| Upload (fileName base64Data : string) (now : N)    (* a file was picked and read *)
| RefineDone (k : nat) (r : ApiResponse)             (* a [refineIdentity] call came back *)
| Tick                                               (* the interval fires *)
| SwapDone (k : nat) (r : ApiResponse)               (* a [performFaceSwap] call came back *)
| ImageDone (k : nat) (o : ImageOutcome)             (* an image of [urlToBase64] loaded or failed *)
| CameraDone (r : option nat)                        (* [getUserMedia] resolved or rejected *)
| Frame (f : option string).                         (* the canvas changes what it would give *)

(** The handler of an event, before React renders. *)
Definition handle (e : Event) (w : World) : World :=
  match e with
  | ClickPower => toggleCamera w
  | ClickSwap => clickSwap w
  | ClickCard i => handleIdentitySelect i w
  | ClickDelete i => deleteIdentity i w
  | Upload f d now => handleFileUpload f d now w
  | RefineDone k r => uploadRefined k (refineIdentity r) w
  | Tick =>
      match interval w with
      | Some c => processFrame c w
      | None => w
      end
  | SwapDone k r => processFrameResumes k (swapResult r) w
  | ImageDone k o =>
      match nth_error (imageLoads w) k with
      | Some url =>
          set_identityBase64 (Some (imageResolves url o))
            (set_imageLoads (dropNth k (imageLoads w)) w)
      | None => w
      end
  | CameraDone r => cameraSettled r w
  | Frame f => set_canvas2d f w
  end.

(** One round: the handler, then the renders. *)
Definition step (w : World) (e : Event) : World := settle (handle e w).

Definition run (w : World) (es : list Event) : World := fold_left step es w.

(** The state after mounting: every effect ran once on the initial hook
    values and changed nothing. *)
Definition init : World :=
  {| identities := INITIAL_IDENTITIES; activeIdentityId := None;
     cameraStatus := INACTIVE; isUploading := false;
     stream := None; swappedFrame := None; isProcessing := false;
     identityBase64 := None;
     depUrl := None; depStatus := INACTIVE;
     depSwap := {| d_status := INACTIVE; d_identityBase64 := None;
                   d_swappedFrame := None; d_isProcessing := false |};
     interval := None;
     outstanding := []; imageLoads := []; cameraRequests := 0;
     refinements := []; canvas2d := None |}.

(** What the page lets the user do: cards and their trash buttons exist
    for the identities of the list, and the file input is disabled while
    an upload is being processed.  Completions and timer events are not
    restricted; their handlers ignore what does not apply. *)
Definition hasId (i : string) (w : World) : bool :=
  existsb (fun x => String.eqb (id x) i) (identities w).

Definition enabled (w : World) (e : Event) : bool :=
  match e with
  | ClickCard i => hasId i w
  | ClickDelete i => hasId i w
  | Upload _ _ _ => negb (isUploading w)
  | _ => true
  end.

(** Every event of [es] is enabled when its turn comes. *)
Fixpoint allEnabled (w : World) (es : list Event) : bool :=
  match es with
  | [] => true
  | e :: r => enabled w e && allEnabled (step w e) r
  end.

Inductive reachable : World -> Prop :=
| reach_init : reachable init
| reach_step w e : reachable w -> enabled w e = true -> reachable (step w e).

(** *** Sample runs *)

(** A response that carries one image. *)
Definition imageResponse (data : string) : ApiResponse :=
  ApiReturns None (Some [Some [RText "ok"; RInline data]]).

(** Power on, select the first identity, let its image load, have a frame
    to capture, activate the persona: the first request is in flight. *)
Definition toArmed : list Event :=
  [ ClickPower; CameraDone (Some 0); ClickCard "1";
    ImageDone 0 (Loaded (Some "data:image/jpeg;base64,AAAA"));
    Frame (Some "data:image/jpeg;base64,SRC1");
    ClickSwap ].

(** The first request succeeds: the loop holds the frame X and the second
    request, which carries X, is in flight. *)
Definition toSynced : list Event :=
  toArmed ++ [ SwapDone 0 (imageResponse "XXXX") ].

(** *** Invariants *)

(** The orchestrator states of the design, read off the hook state: the
    loop is armed when the status is SWAPPING and a target is resolved,
    synced when it also holds a swapped frame. *)
Definition armed (c : SwapDeps) : bool :=
  status_eqb (d_status c) SWAPPING && truthy (d_identityBase64 c).

(** A swapped frame is only held while armed. *)
Definition anchorOk (c : SwapDeps) : bool :=
  match d_swappedFrame c with
  | None => true
  | Some _ => armed c
  end.

(** At most one swap request is in flight, and [isProcessing] says
    whether there is one. *)
Definition singleFlight (w : World) : bool :=
  match outstanding w with
  | [] => negb (isProcessing w)
  | [_] => isProcessing w
  | _ => false
  end.

(** A swapped frame that is held is a non-empty string. *)
Definition anchorTruthy (w : World) : bool :=
  match swappedFrame w with
  | None => true
  | Some _ => truthy (swappedFrame w)
  end.

(** The selected id is the id of an identity of the list. *)
Definition activeListed (w : World) : bool :=
  match activeIdentityId w with
  | Some i => hasId i w
  | None => true
  end.

(** What holds between the renders of one event: the face-swap effect may
    still have to run, and then the swapped frame may still be stale. *)
Record Pre (w : World) : Prop := {
  pre_flight : singleFlight w = true;
  pre_interval :
    interval w = if armed (depSwap w) then Some (depSwap w) else None;
  pre_anchor : swapDeps w = depSwap w -> anchorOk (swapDeps w) = true;
  pre_truthy : anchorTruthy w = true;
  pre_active : activeListed w = true;
  pre_loading : cameraStatus w <> LOADING
}.

(** What holds of every state in which an event can arrive. *)
Record Inv (w : World) : Prop := {
  inv_settled : settled w = true;
  inv_pre : Pre w
}.

(** [k] renders in a row. *)
Fixpoint passes (k : nat) (w : World) : World :=
  match k with
  | 0 => w
  | S n => passes n (pass w)
  end.

(** The two effects that depend on [App]'s state have run. *)
Definition appSynced (w : World) : bool :=
  option_string_eqb (activeIdentityUrl w) (depUrl w)
  && status_eqb (cameraStatus w) (depStatus w).

(** The dependency values the face-swap effect leaves behind when it runs
    with closure [c] in a state whose values are [c]. *)
Definition nextDeps (canvas : option string) (c : SwapDeps) : SwapDeps :=
  if armed c then
    if d_isProcessing c then c
    else match canvas with
         | Some _ =>
             {| d_status := d_status c; d_identityBase64 := d_identityBase64 c;
                d_swappedFrame := d_swappedFrame c; d_isProcessing := true |}
         | None => c
         end
  else {| d_status := d_status c; d_identityBase64 := d_identityBase64 c;
          d_swappedFrame := None; d_isProcessing := d_isProcessing c |}.

End Sasa.

(* ------------------------------------------------------------------ *)
(** ** What the two components render *)

Module View.
Import Js Sasa.

(** What [CameraFeed] puts over the video while the status is SWAPPING. *)
Inductive Overlay :=
| SwappedImage (src : string)
| Spinner.

(** The parts of [CameraFeed]'s JSX that depend on its props and state. *)
Record FeedView := {
  disabledNotice : bool;           (* Camera Input Disabled *)
  video : bool;                    (* the video element *)
  overlay : option Overlay;
  resyncBadge : bool;              (* RE-SYNCING PERSONA... *)
  syncedBadge : bool;              (* NEURAL LINK SYNCED *)
  trackingLabel : option string;   (* the label of the tracking frame *)
  statusDotGreen : bool;
  statusLabel : string
}.

Definition cameraFeed (status : CameraStatus) (isFaceDetected : bool)
                      (swappedFrame : option string) (isProcessing : bool) : FeedView :=
  let showDetectionUI := isFaceDetected && negb (status_eqb status INACTIVE) in
  {| disabledNotice := status_eqb status INACTIVE;
     video := negb (status_eqb status INACTIVE);
     overlay :=
       if status_eqb status SWAPPING then
         Some (if truthy swappedFrame then SwappedImage (asString swappedFrame)
               else Spinner)
       else None;
     resyncBadge :=
       status_eqb status SWAPPING && (isProcessing && truthy swappedFrame);
     syncedBadge :=
       status_eqb status SWAPPING && (truthy swappedFrame && negb isProcessing);
     trackingLabel :=
       if showDetectionUI then
         Some (if status_eqb status SWAPPING then "IDENTITY LOCKED" else "FACE TRACKED")
       else None;
     statusDotGreen := status_eqb status ACTIVE || status_eqb status SWAPPING;
     statusLabel :=
       if status_eqb status SWAPPING then "Virtual Persona" else "Live Feed" |}.

(** [<CameraFeed status={cameraStatus} ... />] on the state. *)
Definition feedView (isFaceDetected : bool) (w : World) : FeedView :=
  cameraFeed (cameraStatus w) isFaceDetected (swappedFrame w) (isProcessing w).

(** The controls of [App]. *)
Record AppView := {
  powerLabel : string;
  swapLabel : string;
  swapButtonDisabled : bool;
  targetLabel : string;
  uploadLabel : string;
  uploadDisabled : bool;
  cards : list (Identity * bool)   (* each identity with [isActive] *)
}.

Definition appView (w : World) : AppView :=
  {| powerLabel :=
       if status_eqb (cameraStatus w) INACTIVE then "INITIALIZE SYSTEM"
       else "SHUTDOWN CORE";
     swapLabel :=
       if status_eqb (cameraStatus w) SWAPPING then "STOP SWAP"
       else "ACTIVATE PERSONA";
     swapButtonDisabled := swapDisabled w;
     targetLabel :=
       match activeIdentity w with
       | Some x => name x
       | None => "None Selected"
       end;
     uploadLabel := if isUploading w then "EXTRACTING..." else "ADD FACE";
     uploadDisabled := isUploading w;
     cards := map (fun x => (x, isActive (activeIdentityId w) x)) (identities w) |}.

End View.

(* ------------------------------------------------------------------ *)
(** ** Notions used in the statements *)

Module Notions.
Import Js Gemini Sasa.

(** The event is the completion of a swap request. *)
Definition isSwapDone (e : Event) : bool :=
  match e with
  | SwapDone _ _ => true
  | _ => false
  end.

(** A part of a response that carries no image. *)
Definition isText (p : ResponsePart) : bool :=
  match p with
  | RText _ => true
  | RInline _ => false
  end.

End Notions.

(* ------------------------------------------------------------------ *)
(** * Properties *)

Import Js Gemini Sasa View Notions.

(** Unfolding the effects and the handlers, and splitting on every test
    they make. *)
Ltac effects :=
  unfold pass, identityEffect, cameraEffect, swapEffect, processFrame,
         urlToBase64, videoRef, canvasRef.

Ltac break :=
  repeat (cbn -[swapRequest refineRequest String.eqb split toString];
          match goal with
          | |- context [if ?b then _ else _] => destruct b eqn:?
          | |- context [match ?x with _ => _ end] => destruct x eqn:?
          end).

Ltac handlers :=
  unfold handle, toggleCamera, clickSwap, toggleSwap, handleIdentitySelect,
         deleteIdentity, handleFileUpload, uploadRefined, processFrameResumes,
         cameraSettled.

(** ** Equality tests *)

Section Equality.

Lemma option_string_eqb_spec a b : reflect (a = b) (option_string_eqb a b).
Proof.
  destruct a as [x|], b as [y|]; simpl; try (constructor; congruence).
  destruct (String.eqb_spec x y); constructor; congruence.
Qed.

Lemma option_string_eqb_refl a : option_string_eqb a a = true.
Proof. destruct (option_string_eqb_spec a a); congruence. Qed.

Lemma status_eqb_spec a b : reflect (a = b) (status_eqb a b).
Proof. destruct a, b; simpl; constructor; congruence. Qed.

Lemma status_eqb_refl a : status_eqb a a = true.
Proof. now destruct a. Qed.

Lemma swapDeps_eqb_spec a b : reflect (a = b) (swapDeps_eqb a b).
Proof.
  destruct a as [s1 i1 f1 p1], b as [s2 i2 f2 p2]; unfold swapDeps_eqb; simpl.
  destruct (status_eqb_spec s1 s2); [|constructor; congruence].
  destruct (option_string_eqb_spec i1 i2); [|constructor; congruence].
  destruct (option_string_eqb_spec f1 f2); [|constructor; congruence].
  destruct (Bool.eqb_spec p1 p2); constructor; congruence.
Qed.

Lemma swapDeps_eqb_refl a : swapDeps_eqb a a = true.
Proof. destruct (swapDeps_eqb_spec a a); congruence. Qed.

End Equality.

(* ------------------------------------------------------------------ *)
(** ** The inference client *)

Section Framing.

Lemma split_nonempty c s : split c s <> [].
Proof.
  destruct s as [|a r]; simpl; [discriminate|].
  destruct (Ascii.eqb a c); [discriminate|].
  destruct (split c r); discriminate.
Qed.

Lemma split_without c s : includes c s = false -> split c s = [s].
Proof.
  induction s as [|a r IH]; simpl; intros H; [reflexivity|].
  apply orb_false_iff in H as [Ha Hr].
  rewrite Ha, (IH Hr). reflexivity.
Qed.

Lemma split_at_first c p r :
  includes c p = false ->
  split c (p ++ String c r) = p :: split c r.
Proof.
  induction p as [|a p IH]; simpl; intros H.
  - rewrite Ascii.eqb_refl. reflexivity.
  - apply orb_false_iff in H as [Ha Hp].
    rewrite Ha, (IH Hp). reflexivity.
Qed.

(** [split(',')[1]] is defined whenever [includes(',')] holds. *)
Lemma split_second c s :
  includes c s = true -> exists p, nth_error (split c s) 1 = Some p.
Proof.
  induction s as [|a r IH]; simpl; [discriminate|].
  destruct (Ascii.eqb a c); simpl; intros H.
  - destruct (split c r) as [|h t] eqn:E; [now apply split_nonempty in E|].
    now exists h.
  - destruct (IH H) as [p Hp].
    destruct (split c r) as [|h t]; [discriminate|]. now exists p.
Qed.

Lemma includes_app c p r : includes c (p ++ r) = includes c p || includes c r.
Proof.
  induction p as [|a p IH]; simpl; [reflexivity|].
  rewrite IH. now rewrite orb_assoc.
Qed.

(** A data URI [prefix,payload] is reduced to its payload. *)
Lemma clean_envelope prefix payload :
  includes "," prefix = false ->
  includes "," payload = false ->
  clean (prefix ++ String "," payload) = payload.
Proof.
  intros Hp Hq. unfold clean.
  rewrite includes_app. simpl. rewrite orb_true_r.
  rewrite split_at_first by assumption.
  rewrite split_without by assumption. reflexivity.
Qed.

Lemma clean_plain x : includes "," x = false -> clean x = x.
Proof. intros H. unfold clean. now rewrite H. Qed.

(** C7, as stated, fails: an anchor whose envelope carries an empty
    payload is supplied, and the request is the one built without any
    anchor: two images and the instruction block without the anchor
    lines. *)
Lemma swap_framing_counterexample :
  let source := "data:image/jpeg;base64,AAAA" in
  let target := "data:image/jpeg;base64,BBBB" in
  let anchor := Some "data:image/png;base64," in
  swapParts source target anchor =
    [ jpeg "AAAA"; jpeg "BBBB"; Text (instruction false) ]
  /\ swapParts source target anchor = swapParts source target None.
Proof. split; reflexivity. Qed.

(** C7, amended: the request holds the stripped source, the stripped
    target, the stripped anchor exactly when the stripped anchor is a
    non-empty string, and last one instruction block that depends on
    nothing but that same test; every image is tagged [image/jpeg]; and
    stripping turns a data URI into its payload and leaves a string
    without a comma as it is. *)
Theorem swap_request_framing
    (source target : string) (previous : option string)
    (prefix payload plain : string) :
  includes "," prefix = false ->
  includes "," payload = false ->
  includes "," plain = false ->
  let present := truthy (cleanOpt previous) in
  swapParts source target previous =
    [ InlineData (clean source) "image/jpeg";
      InlineData (clean target) "image/jpeg" ]
    ++ (match previous with
        | Some a => if present then [ InlineData (clean a) "image/jpeg" ] else []
        | None => []
        end)
    ++ [ Text (instruction present) ]
  /\ (present = true <-> exists a, previous = Some a /\ clean a <> "")
  /\ clean (prefix ++ String "," payload) = payload
  /\ clean plain = plain.
Proof.
  intros Hp Hq Hn present. repeat split.
  - unfold swapParts, jpeg. fold present.
    destruct previous as [a|]; simpl; [|reflexivity].
    destruct present; reflexivity.
  - unfold present. destruct previous as [a|]; simpl; [|discriminate].
    intros H. exists a. split; [reflexivity|].
    intros E. rewrite E in H. discriminate.
  - intros [a [-> Ha]]. unfold present. simpl.
    destruct (clean a); [congruence|reflexivity].
  - now apply clean_envelope.
  - now apply clean_plain.
Qed.

Lemma swap_request_framing_witness :
  swapParts "data:image/jpeg;base64,SRC" "data:image/jpeg;base64,TGT"
            (Some "data:image/png;base64,OLD") =
    [ InlineData "SRC" "image/jpeg"; InlineData "TGT" "image/jpeg";
      InlineData "OLD" "image/jpeg"; Text (instruction true) ].
Proof.
  exact (proj1 (swap_request_framing
                  "data:image/jpeg;base64,SRC" "data:image/jpeg;base64,TGT"
                  (Some "data:image/png;base64,OLD")
                  "data:image/jpeg;base64" "SRC" "https://example.org/a.jpg"
                  eq_refl eq_refl eq_refl)).
Defined.

End Framing.

(* ------------------------------------------------------------------ *)
(** ** The image codec *)

Section Codec.

Lemma startsWith_data_nonempty url :
  startsWith "data:" url = true -> truthy (Some url) = true.
Proof. destruct url; [discriminate|reflexivity]. Qed.

(** C9: an identity resource that is already a data URI comes back from
    [urlToBase64] as it went in, at once and without an image load, and it
    is this very string that the identity effect stores as the target. *)
Theorem urlToBase64_inline_unchanged (url : string) (w : World) :
  startsWith "data:" url = true ->
  urlToBase64 url = Resolved url
  /\ identityBase64 (identityEffect (Some url) w) = Some url
  /\ imageLoads (identityEffect (Some url) w) = imageLoads w.
Proof.
  intros H. unfold identityEffect, urlToBase64.
  rewrite (startsWith_data_nonempty _ H), H. repeat split.
Qed.

Lemma urlToBase64_inline_unchanged_witness :
  urlToBase64 "data:image/png;base64,iVBORw0KGgo=" = Resolved "data:image/png;base64,iVBORw0KGgo=".
Proof.
  exact (proj1 (urlToBase64_inline_unchanged "data:image/png;base64,iVBORw0KGgo=" init eq_refl)).
Defined.

End Codec.

(* ------------------------------------------------------------------ *)
(** ** Rendering until nothing changes *)

Lemma pass_app w :
  identities (pass w) = identities w
  /\ activeIdentityId (pass w) = activeIdentityId w
  /\ cameraStatus (pass w) = cameraStatus w
  /\ canvas2d (pass w) = canvas2d w.
Proof. effects. break; simpl; auto. Qed.

Lemma pass_url w : activeIdentityUrl (pass w) = activeIdentityUrl w.
Proof.
  unfold activeIdentityUrl, activeIdentity.
  destruct (pass_app w) as (-> & -> & _). reflexivity.
Qed.

Lemma pass_deps w :
  depUrl (pass w) = activeIdentityUrl w
  /\ depStatus (pass w) = cameraStatus w
  /\ depSwap (pass w) = swapDeps w.
Proof. unfold pass. simpl. auto. Qed.

Lemma pass_appSynced w : appSynced (pass w) = true.
Proof.
  unfold appSynced. rewrite pass_url.
  destruct (pass_deps w) as (-> & -> & _).
  destruct (pass_app w) as (_ & _ & -> & _).
  now rewrite option_string_eqb_refl, status_eqb_refl.
Qed.

Lemma swapEffect_deps w :
  swapDeps (swapEffect (swapDeps w) w) = nextDeps (canvas2d w) (swapDeps w).
Proof.
  unfold swapEffect, processFrame, nextDeps, armed, videoRef, canvasRef, swapDeps.
  destruct w as [ids act st up str sf ip ib du ds dsw iv out il cr rf cv]; simpl.
  destruct st; simpl; try reflexivity.
  destruct (truthy ib) eqn:Hib; simpl; try reflexivity.
  destruct ip; simpl; try reflexivity.
  destruct cv; reflexivity.
Qed.

Lemma pass_synced w :
  appSynced w = true ->
  swapDeps (pass w) =
    if swapDeps_eqb (swapDeps w) (depSwap w) then swapDeps w
    else nextDeps (canvas2d w) (swapDeps w).
Proof.
  unfold appSynced. intros H. apply andb_true_iff in H as [Hu Hs].
  unfold pass. rewrite Hu, Hs.
  destruct (swapDeps_eqb (swapDeps w) (depSwap w)); [reflexivity|].
  change (swapDeps (swapEffect (swapDeps w) w) = nextDeps (canvas2d w) (swapDeps w)).
  apply swapEffect_deps.
Qed.

Lemma nextDeps_idem cv c : nextDeps cv (nextDeps cv c) = nextDeps cv c.
Proof.
  unfold nextDeps, armed. destruct c as [st ib sf ip]; simpl.
  destruct st; simpl; try reflexivity;
  destruct (truthy ib) eqn:Hib; simpl; try reflexivity;
  destruct ip; simpl; try reflexivity;
  destruct cv; simpl; rewrite ?Hib; reflexivity.
Qed.

Lemma settled_split w :
  settled w = appSynced w && swapDeps_eqb (swapDeps w) (depSwap w).
Proof. reflexivity. Qed.

Lemma settled_two_passes w :
  appSynced w = true -> settled (pass (pass w)) = true.
Proof.
  intros H.
  rewrite settled_split, pass_appSynced. cbn [andb].
  destruct (pass_deps (pass w)) as (_ & _ & ->).
  rewrite (pass_synced (pass w) (pass_appSynced w)).
  destruct (pass_deps w) as (_ & _ & ->).
  destruct (swapDeps_eqb (swapDeps (pass w)) (swapDeps w)) eqn:E.
  - apply swapDeps_eqb_refl.
  - rewrite (pass_synced w H) in *.
    destruct (swapDeps_eqb (swapDeps w) (depSwap w)).
    + now rewrite swapDeps_eqb_refl in E.
    + destruct (pass_app w) as (_ & _ & _ & ->).
      rewrite nextDeps_idem. apply swapDeps_eqb_refl.
Qed.

Lemma settled_three_passes w : settled (passes 3 w) = true.
Proof. change (settled (pass (pass (pass w))) = true). apply settled_two_passes, pass_appSynced. Qed.

Lemma settled_settleN n w k :
  k <= n -> settled (passes k w) = true -> settled (settleN n w) = true.
Proof.
  revert w k. induction n as [|n IH]; intros w k Hk H.
  - assert (k = 0) by lia. subst. exact H.
  - simpl. destruct (settled w) eqn:E; [exact E|].
    destruct k as [|k]; [simpl in H; congruence|].
    apply (IH (pass w) k); [lia|exact H].
Qed.

Lemma settle_settled w : settled (settle w) = true.
Proof. apply settled_settleN with (k := 3); [lia|apply settled_three_passes]. Qed.

Lemma settle_fixed w : settled w = true -> settle w = w.
Proof. intros H. unfold settle. cbn [settleN]. now rewrite H. Qed.

Lemma identityEffect_flight u w :
  outstanding (identityEffect u w) = outstanding w
  /\ isProcessing (identityEffect u w) = isProcessing w.
Proof. unfold identityEffect, urlToBase64. break; auto. Qed.

Lemma cameraEffect_flight s w :
  outstanding (cameraEffect s w) = outstanding w
  /\ isProcessing (cameraEffect s w) = isProcessing w.
Proof. unfold cameraEffect. break; auto. Qed.

Lemma processFrame_flight c w :
  d_isProcessing c = isProcessing w ->
  singleFlight w = true -> singleFlight (processFrame c w) = true.
Proof.
  unfold singleFlight, processFrame. intros E H.
  destruct (negb _ || negb _ || d_isProcessing c) eqn:G; [exact H|].
  apply orb_false_iff in G as [_ G]. rewrite G in E.
  destruct (negb (videoRef w) || negb (canvasRef w)); [exact H|].
  destruct (outstanding w) as [|r [|r' t]] eqn:O; try rewrite <- E in H; try discriminate.
  destruct (canvas2d w); cbn; rewrite ?O; reflexivity.
Qed.

Lemma swapEffect_flight c w :
  d_isProcessing c = isProcessing w ->
  singleFlight w = true -> singleFlight (swapEffect c w) = true.
Proof.
  intros E H. unfold swapEffect.
  destruct (status_eqb _ _ && truthy _).
  - apply (processFrame_flight c w E) in H. exact H.
  - exact H.
Qed.

Lemma pass_flight w : singleFlight w = true -> singleFlight (pass w) = true.
Proof.
  intros H. unfold pass.
  set (w1 := if option_string_eqb _ _ then w else _).
  set (w2 := if status_eqb _ _ then w1 else _).
  assert (F1 : outstanding w1 = outstanding w /\ isProcessing w1 = isProcessing w).
  { unfold w1. destruct (option_string_eqb _ _); [auto|apply identityEffect_flight]. }
  assert (F2 : outstanding w2 = outstanding w /\ isProcessing w2 = isProcessing w).
  { unfold w2. destruct (status_eqb _ _); [auto|].
    destruct (cameraEffect_flight (cameraStatus w) w1) as [-> ->]. exact F1. }
  assert (H2 : singleFlight w2 = true).
  { unfold singleFlight. destruct F2 as [-> ->]. exact H. }
  destruct (swapDeps_eqb _ _); [exact H2|].
  apply (swapEffect_flight (swapDeps w) w2) in H2; [exact H2|].
  destruct F2 as [_ ->]. reflexivity.
Qed.

Lemma pass_interval w :
  interval w = (if armed (depSwap w) then Some (depSwap w) else None) ->
  interval (pass w) = if armed (depSwap (pass w)) then Some (depSwap (pass w)) else None.
Proof.
  intros H. destruct (pass_deps w) as (_ & _ & ->).
  unfold pass. cbn [interval set_deps].
  destruct (swapDeps_eqb_spec (swapDeps w) (depSwap w)) as [E|E].
  - rewrite E, <- H. clear. unfold identityEffect, cameraEffect, urlToBase64.
    break; reflexivity.
  - unfold swapEffect, armed. destruct (status_eqb _ _ && truthy _); reflexivity.
Qed.

Lemma pass_anchor w :
  (swapDeps w = depSwap w -> anchorOk (swapDeps w) = true) ->
  swapDeps (pass w) = depSwap (pass w) -> anchorOk (swapDeps (pass w)) = true.
Proof.
  intros H. destruct (pass_deps w) as (_ & _ & ->). intros E. rewrite E.
  destruct (swapDeps_eqb_spec (swapDeps w) (depSwap w)) as [D|D]; [auto|].
  unfold anchorOk. destruct (armed (swapDeps w)) eqn:A.
  - now destruct (d_swappedFrame _).
  - assert (S : swappedFrame (pass w) = None).
    { unfold pass. destruct (swapDeps_eqb_spec (swapDeps w) (depSwap w)); [contradiction|].
      unfold swapEffect. fold (armed (swapDeps w)). rewrite A. reflexivity. }
    change (d_swappedFrame (swapDeps w)) with (swappedFrame w).
    assert (S' : swappedFrame w = swappedFrame (pass w))
      by (change (d_swappedFrame (swapDeps w) = d_swappedFrame (swapDeps (pass w))); now rewrite E).
    now rewrite S', S.
Qed.

Lemma pass_swappedFrame w :
  swappedFrame (pass w) = None \/ swappedFrame (pass w) = swappedFrame w.
Proof. effects. break; auto. Qed.

Lemma pass_truthy w : anchorTruthy w = true -> anchorTruthy (pass w) = true.
Proof.
  unfold anchorTruthy. destruct (pass_swappedFrame w) as [-> | ->]; auto.
Qed.

Lemma pass_pre w : Pre w -> Pre (pass w).
Proof.
  intros [F I A T L N]. split.
  - now apply pass_flight.
  - now apply pass_interval.
  - now apply pass_anchor.
  - now apply pass_truthy.
  - unfold activeListed, hasId in *. now destruct (pass_app w) as (-> & -> & _).
  - now destruct (pass_app w) as (_ & _ & -> & _).
Qed.

Lemma settleN_pre n w : Pre w -> Pre (settleN n w).
Proof.
  revert w. induction n as [|n IH]; intros w H; cbn [settleN]; [exact H|].
  destruct (settled w); [exact H|]. apply IH, pass_pre, H.
Qed.

Lemma settled_deps w : settled w = true -> swapDeps w = depSwap w.
Proof.
  rewrite settled_split. intros H. apply andb_true_iff in H as [_ H].
  now destruct (swapDeps_eqb_spec (swapDeps w) (depSwap w)).
Qed.

Lemma settle_inv w : Pre w -> Inv (settle w).
Proof.
  intros H. split; [apply settle_settled|]. now apply settleN_pre.
Qed.

Lemma processFrame_effects c w :
  interval (processFrame c w) = interval w
  /\ depSwap (processFrame c w) = depSwap w
  /\ identities (processFrame c w) = identities w
  /\ activeIdentityId (processFrame c w) = activeIdentityId w
  /\ cameraStatus (processFrame c w) = cameraStatus w
  /\ swappedFrame (processFrame c w) = swappedFrame w
  /\ identityBase64 (processFrame c w) = identityBase64 w.
Proof. unfold processFrame. break; cbn; auto 10. Qed.

Lemma handle_effects e w :
  interval (handle e w) = interval w /\ depSwap (handle e w) = depSwap w.
Proof.
  destruct e; handlers; try (break; cbn; auto; fail).
  destruct (interval w) as [c|] eqn:E; [|now rewrite E].
  destruct (processFrame_effects c w) as (-> & -> & _). now rewrite E.
Qed.

Lemma singleFlight_ext w w' :
  outstanding w' = outstanding w -> isProcessing w' = isProcessing w ->
  singleFlight w = true -> singleFlight w' = true.
Proof. unfold singleFlight. now intros -> ->. Qed.

Lemma handle_flight e w : Inv w -> singleFlight (handle e w) = true.
Proof.
  intros [S [F I _ _ _ _]].
  destruct e; handlers;
    try (apply singleFlight_ext with w; [break; reflexivity|break; reflexivity|exact F]).
  - (* Tick *)
    destruct (interval w) as [c|] eqn:E; [|exact F].
    apply processFrame_flight; [|exact F].
    destruct (armed (depSwap w)); [|discriminate].
    injection I as ->. now rewrite <- (settled_deps w S).
  - (* SwapDone *)
    pose proof F as F'. unfold singleFlight in F'.
    destruct (outstanding w) as [|q [|q' t]] eqn:O; try discriminate.
    + destruct k; exact F.
    + destruct k as [|k]; cbn [nth_error]; [|destruct k; exact F].
      unfold singleFlight. destruct (truthy _); cbn; rewrite ?O; reflexivity.
Qed.

Lemma hasId_filter i j ids :
  String.eqb j i = false ->
  existsb (fun x => String.eqb (id x) j)
          (filter (fun x => negb (String.eqb (id x) i)) ids)
  = existsb (fun x => String.eqb (id x) j) ids.
Proof.
  intros N. induction ids as [|x r IH]; [reflexivity|]. cbn.
  destruct (String.eqb_spec (id x) i) as [E|E]; cbn.
  - rewrite IH. rewrite E. destruct (String.eqb_spec i j); [subst; now rewrite String.eqb_refl in N|reflexivity].
  - now rewrite IH.
Qed.

Lemma hasId_markReady i n ids :
  existsb (fun x => String.eqb (id x) i) (map (markReady n) ids)
  = existsb (fun x => String.eqb (id x) i) ids.
Proof.
  induction ids as [|x r IH]; [reflexivity|]. cbn. rewrite IH.
  unfold markReady. now destruct (String.eqb (id x) n).
Qed.

Lemma activeListed_ext w w' :
  identities w' = identities w -> activeIdentityId w' = activeIdentityId w ->
  activeListed w = true -> activeListed w' = true.
Proof. unfold activeListed, hasId. now intros -> ->. Qed.

Lemma handle_active e w :
  activeListed w = true -> enabled w e = true -> activeListed (handle e w) = true.
Proof.
  intros A En.
  destruct e; handlers;
    try (apply activeListed_ext with w; [break; reflexivity|break; reflexivity|exact A]);
    unfold activeListed, hasId in *; cbn in En; unfold hasId in En.
  - (* ClickCard *)
    cbn -[option_string_eqb]. destruct (option_string_eqb _ _); [reflexivity|exact En].
  - (* ClickDelete *)
    destruct (option_string_eqb_spec (activeIdentityId w) (Some i)) as [E|E]; cbn; [reflexivity|].
    destruct (activeIdentityId w) as [j|]; [|reflexivity].
    rewrite hasId_filter; [exact A|].
    destruct (String.eqb_spec j i); [subst; congruence|reflexivity].
  - (* Upload *)
    cbn -[toString split]. destruct (activeIdentityId w); [|reflexivity].
    rewrite existsb_app, A. reflexivity.
  - (* RefineDone *)
    destruct (nth_error _ _) as [[n r']|]; [|exact A]. cbn.
    destruct (activeIdentityId w); [|reflexivity]. now rewrite hasId_markReady.
  - (* Tick *)
    destruct (interval w) as [c|]; [|exact A].
    destruct (processFrame_effects c w) as (_ & _ & -> & -> & _). exact A.
Qed.

Lemma handle_loading e w :
  cameraStatus w <> LOADING -> cameraStatus (handle e w) <> LOADING.
Proof.
  intros N. destruct e; handlers; try (break; cbn; congruence).
  destruct (interval w); [|exact N].
  destruct (processFrame_effects s w) as (_ & _ & _ & _ & -> & _). exact N.
Qed.

Lemma handle_truthy e w : anchorTruthy w = true -> anchorTruthy (handle e w) = true.
Proof.
  intros T. destruct e; handlers; try (break; exact T).
  - destruct (interval w) as [c|]; [|exact T]. unfold anchorTruthy.
    destruct (processFrame_effects c w) as (_ & _ & _ & _ & _ & -> & _). exact T.
  - destruct (nth_error _ _); [|exact T].
    destruct (truthy (swapResult r)) eqn:R; unfold anchorTruthy; cbn.
    + rewrite R. now destruct (swapResult r).
    + exact T.
Qed.

Lemma handle_pre e w : Inv w -> enabled w e = true -> Pre (handle e w).
Proof.
  intros H En. pose proof H as [S [F I A T L N]]. split.
  - now apply handle_flight.
  - destruct (handle_effects e w) as [-> ->]. exact I.
  - destruct (handle_effects e w) as [_ ->]. intros E. rewrite E.
    rewrite <- (settled_deps w S). auto using settled_deps.
  - now apply handle_truthy.
  - now apply handle_active.
  - now apply handle_loading.
Qed.

Lemma init_inv : Inv init.
Proof. split; [reflexivity|]. split; try reflexivity; discriminate. Qed.

Lemma step_inv w e : Inv w -> enabled w e = true -> Inv (step w e).
Proof. intros H En. apply settle_inv, handle_pre; assumption. Qed.

Lemma reachable_inv w : reachable w -> Inv w.
Proof. induction 1; [apply init_inv|now apply step_inv]. Qed.

Lemma reachable_run w es :
  reachable w -> allEnabled w es = true -> reachable (run w es).
Proof.
  revert w. induction es as [|e r IH]; intros w R En; [exact R|].
  cbn [allEnabled] in En. apply andb_true_iff in En as [E1 E2].
  cbn [run fold_left]. apply IH; [now apply reach_step|exact E2].
Qed.

(* ------------------------------------------------------------------ *)
(** ** What rendering leaves alone, and what it sends *)

Lemma pass_env w :
  isUploading (pass w) = isUploading w
  /\ refinements (pass w) = refinements w.
Proof. effects. break; auto. Qed.

Lemma settleN_app n w :
  identities (settleN n w) = identities w
  /\ activeIdentityId (settleN n w) = activeIdentityId w
  /\ cameraStatus (settleN n w) = cameraStatus w
  /\ canvas2d (settleN n w) = canvas2d w
  /\ isUploading (settleN n w) = isUploading w
  /\ refinements (settleN n w) = refinements w.
Proof.
  revert w. induction n as [|n IH]; intros w; cbn [settleN]; [auto 10|].
  destruct (settled w); [auto 10|].
  destruct (IH (pass w)) as (-> & -> & -> & -> & -> & ->).
  destruct (pass_app w) as (-> & -> & -> & ->).
  destruct (pass_env w) as (-> & ->). auto 10.
Qed.

(** Once the effects on [App]'s state have run, further renders only run
    the face-swap effect. *)
Lemma pass_synced_world w :
  appSynced w = true ->
  pass w =
    set_deps (activeIdentityUrl w) (cameraStatus w) (swapDeps w)
      (if swapDeps_eqb (swapDeps w) (depSwap w) then w
       else swapEffect (swapDeps w) w).
Proof.
  unfold appSynced. intros H. apply andb_true_iff in H as [Hu Hs].
  unfold pass. rewrite Hu, Hs. now destruct (swapDeps_eqb _ _).
Qed.

Lemma swapEffect_core c w :
  identityBase64 (swapEffect c w) = identityBase64 w
  /\ stream (swapEffect c w) = stream w
  /\ cameraRequests (swapEffect c w) = cameraRequests w
  /\ imageLoads (swapEffect c w) = imageLoads w.
Proof. unfold swapEffect, processFrame. break; auto. Qed.

Lemma pass_core w :
  appSynced w = true ->
  identityBase64 (pass w) = identityBase64 w
  /\ stream (pass w) = stream w
  /\ cameraRequests (pass w) = cameraRequests w
  /\ imageLoads (pass w) = imageLoads w.
Proof.
  intros H. rewrite (pass_synced_world w H).
  destruct (swapDeps_eqb _ _); cbn; [auto|apply swapEffect_core].
Qed.

Lemma settleN_core n w :
  appSynced w = true ->
  identityBase64 (settleN n w) = identityBase64 w
  /\ stream (settleN n w) = stream w
  /\ cameraRequests (settleN n w) = cameraRequests w
  /\ imageLoads (settleN n w) = imageLoads w.
Proof.
  revert w. induction n as [|n IH]; intros w H; cbn [settleN]; [auto|].
  destruct (settled w); [auto|].
  destruct (IH (pass w) (pass_appSynced w)) as (-> & -> & -> & ->).
  now apply pass_core.
Qed.

Lemma settle_unfold w : settle w = if settled w then w else settleN 3 (pass w).
Proof. reflexivity. Qed.

(** What the first render decides stays: the target, the stream, the
    camera requests and the image loads of [settle w] are those of [w] when
    [w] is settled and those of [pass w] otherwise. *)
Lemma settle_core w :
  let w1 := if settled w then w else pass w in
  identityBase64 (settle w) = identityBase64 w1
  /\ stream (settle w) = stream w1
  /\ cameraRequests (settle w) = cameraRequests w1
  /\ imageLoads (settle w) = imageLoads w1.
Proof.
  rewrite settle_unfold. destruct (settled w); cbn zeta; [auto|].
  apply settleN_core, pass_appSynced.
Qed.

Lemma step_app w e :
  identities (step w e) = identities (handle e w)
  /\ activeIdentityId (step w e) = activeIdentityId (handle e w)
  /\ cameraStatus (step w e) = cameraStatus (handle e w)
  /\ canvas2d (step w e) = canvas2d (handle e w)
  /\ isUploading (step w e) = isUploading (handle e w)
  /\ refinements (step w e) = refinements (handle e w).
Proof. apply settleN_app. Qed.

(** Armed, and either a request is in flight or there is no frame to
    capture: a render changes nothing but the bookkeeping of the effects. *)
Lemma pass_inert w :
  appSynced w = true -> armed (swapDeps w) = true ->
  isProcessing w = true \/ canvas2d w = None ->
  outstanding (pass w) = outstanding w /\ swapDeps (pass w) = swapDeps w.
Proof.
  intros H A B. rewrite (pass_synced_world w H).
  destruct (swapDeps_eqb _ _); [auto|].
  unfold swapEffect, processFrame. fold (armed (swapDeps w)). rewrite A.
  cbn [d_isProcessing swapDeps].
  destruct (isProcessing w) eqn:P; [rewrite orb_true_r; auto|].
  destruct B as [B|B]; [discriminate|]. rewrite B.
  destruct (_ || _ || false); [auto|]. destruct (_ || _); [auto|].
  unfold swapDeps. cbn. rewrite P. auto.
Qed.

Lemma settleN_inert n w :
  appSynced w = true -> armed (swapDeps w) = true ->
  isProcessing w = true \/ canvas2d w = None ->
  outstanding (settleN n w) = outstanding w /\ swapDeps (settleN n w) = swapDeps w.
Proof.
  revert w. induction n as [|n IH]; intros w H A B; cbn [settleN]; [auto|].
  destruct (settled w); [auto|].
  destruct (pass_inert w H A B) as [O D].
  destruct (IH (pass w)) as [-> ->]; auto using pass_appSynced.
  - now rewrite D.
  - destruct (pass_app w) as (_ & _ & _ & ->).
    change (isProcessing (pass w)) with (d_isProcessing (swapDeps (pass w))).
    rewrite D. exact B.
Qed.

Lemma armed_inv c :
  armed c = true -> d_status c = SWAPPING /\ truthy (d_identityBase64 c) = true.
Proof.
  unfold armed. intros H. apply andb_true_iff in H as [S T].
  now destruct (status_eqb_spec (d_status c) SWAPPING).
Qed.

(** Armed, no request in flight, a frame to capture: [processFrame] sends
    one request, built from the frame, the target and the swapped frame of
    its closure. *)
Lemma processFrame_dispatch c w source target :
  armed c = true -> d_isProcessing c = false -> cameraStatus w = SWAPPING ->
  canvas2d w = Some source -> d_identityBase64 c = Some target ->
  processFrame c w =
    set_outstanding
      (outstanding w ++ [swapRequest source target (orUndefined (d_swappedFrame c))])
      (set_isProcessing true w).
Proof.
  intros A P S C T. destruct (armed_inv c A) as [St Tr].
  unfold processFrame, videoRef, canvasRef.
  rewrite St, Tr, P, S, C, T. reflexivity.
Qed.

Lemma settle_dispatch w source target :
  appSynced w = true -> swapDeps w <> depSwap w ->
  armed (swapDeps w) = true -> isProcessing w = false ->
  canvas2d w = Some source -> identityBase64 w = Some target ->
  outstanding (settle w) =
    outstanding w ++ [swapRequest source target (orUndefined (swappedFrame w))]
  /\ swappedFrame (settle w) = swappedFrame w
  /\ isProcessing (settle w) = true.
Proof.
  intros H D A P C T.
  assert (E : pass w =
    set_deps (activeIdentityUrl w) (cameraStatus w) (swapDeps w)
      (set_interval (Some (swapDeps w))
        (set_outstanding
           (outstanding w ++ [swapRequest source target (orUndefined (swappedFrame w))])
           (set_isProcessing true w)))).
  { rewrite (pass_synced_world w H).
    destruct (swapDeps_eqb_spec (swapDeps w) (depSwap w)); [contradiction|].
    unfold swapEffect. fold (armed (swapDeps w)). rewrite A.
    rewrite processFrame_dispatch with (source := source) (target := target); auto.
    now destruct (armed_inv _ A). }
  rewrite settle_unfold, settled_split, H. cbn [andb].
  destruct (swapDeps_eqb_spec (swapDeps w) (depSwap w)); [contradiction|].
  destruct (settleN_inert 3 (pass w)) as [O S].
  - apply pass_appSynced.
  - rewrite E. exact A.
  - left. rewrite E. reflexivity.
  - rewrite O.
    change (swappedFrame (settleN 3 (pass w))) with (d_swappedFrame (swapDeps (settleN 3 (pass w)))).
    change (isProcessing (settleN 3 (pass w))) with (d_isProcessing (swapDeps (settleN 3 (pass w)))).
    rewrite S, E. auto.
Qed.

(* ------------------------------------------------------------------ *)
(** ** The face-swap loop *)

Lemma inv_busy w : Inv w -> outstanding w <> [] -> isProcessing w = true.
Proof.
  intros [_ [F _ _ _ _ _]] N. unfold singleFlight in F.
  destruct (outstanding w) as [|q [|q' t]]; [contradiction|exact F|discriminate].
Qed.

Lemma inv_interval w :
  Inv w -> interval w = if armed (swapDeps w) then Some (swapDeps w) else None.
Proof. intros [S [_ I _ _ _ _]]. now rewrite (settled_deps w S). Qed.

Lemma inv_anchor w : Inv w -> swappedFrame w <> None -> armed (swapDeps w) = true.
Proof.
  intros [S [_ _ A _ _ _]] N. specialize (A (settled_deps w S)).
  unfold anchorOk in A. cbn [d_swappedFrame swapDeps] in A.
  destruct (swappedFrame w); [exact A|contradiction].
Qed.

Lemma passes_pre k w : Pre w -> Pre (passes k w).
Proof.
  revert w. induction k as [|k IH]; intros w H; [exact H|].
  cbn [passes]. apply IH, pass_pre, H.
Qed.

Lemma flight_length w : singleFlight w = true -> List.length (outstanding w) <= 1.
Proof.
  unfold singleFlight.
  destruct (outstanding w) as [|q [|q' t]]; cbn; [lia|lia|discriminate].
Qed.

(** C1: in every state the session can reach, whatever the order of
    clicks, timer ticks and completions, at most one swap request is in
    flight, and [isProcessing] is set while one is; the same bound holds
    after the handler of the next event and after each of the renders that
    follow it; a tick that fires while [isProcessing] is set, or while the
    status is not SWAPPING, or without a resolved target, leaves the whole
    state as it is: no request is sent and nothing is kept for later. *)
Theorem single_flight (w : World) :
  reachable w ->
  List.length (outstanding w) <= 1
  /\ (outstanding w <> [] -> isProcessing w = true)
  /\ (forall e k, enabled w e = true ->
        List.length (outstanding (passes k (handle e w))) <= 1)
  /\ (isProcessing w = true \/ cameraStatus w <> SWAPPING
      \/ truthy (identityBase64 w) = false ->
      step w Tick = w).
Proof.
  intros R. pose proof (reachable_inv R) as I. split; [|split; [|split]].
  - apply flight_length, I.
  - now apply inv_busy.
  - intros e k En. apply flight_length.
    now apply (pre_flight (passes_pre k (handle_pre e I En))).
  - intros H. unfold step, handle. rewrite (inv_interval I).
    destruct (armed (swapDeps w)) eqn:A.
    + destruct (armed_inv _ A) as [St Tr]. cbn [d_status d_identityBase64 swapDeps] in St, Tr.
      destruct H as [H|[H|H]]; [|contradiction|congruence].
      unfold processFrame. cbn [d_isProcessing swapDeps]. rewrite H, orb_true_r.
      apply settle_fixed, I.
    + apply settle_fixed, I.
Qed.

Lemma toArmed_reachable : reachable (run init toArmed).
Proof. apply reachable_run; [apply reach_init|reflexivity]. Qed.

Lemma toSynced_reachable : reachable (run init toSynced).
Proof. apply reachable_run; [apply reach_init|reflexivity]. Qed.

Lemma single_flight_witness :
  List.length (outstanding (run init toArmed)) <= 1
  /\ step (run init toArmed) Tick = run init toArmed.
Proof.
  destruct (single_flight toArmed_reachable) as (L & _ & _ & T).
  split; [exact L|]. apply T. left. reflexivity.
Defined.

(** A tick that fires while the loop is armed, nothing is in flight and a
    frame can be captured sends one request. *)
Lemma tick_dispatch w source target :
  Inv w -> armed (swapDeps w) = true -> isProcessing w = false ->
  canvas2d w = Some source -> identityBase64 w = Some target ->
  outstanding (step w Tick) =
    outstanding w ++ [swapRequest source target (orUndefined (swappedFrame w))].
Proof.
  intros I A P C T. unfold step, handle. rewrite (inv_interval I), A.
  destruct (armed_inv _ A) as [St _]. cbn [d_status swapDeps] in St.
  rewrite processFrame_dispatch with (source := source) (target := target); auto.
  set (w1 := set_outstanding _ _).
  destruct (settleN_inert 4 w1) as [O _].
  - destruct I as [S _]. rewrite settled_split in S.
    apply andb_true_iff in S as [S _]. exact S.
  - exact A.
  - left. reflexivity.
  - unfold settle. rewrite O. reflexivity.
Qed.

Lemma inv_appSynced w : Inv w -> appSynced w = true.
Proof.
  intros [S _]. rewrite settled_split in S. now apply andb_true_iff in S as [S _].
Qed.

Lemma inv_truthy w : Inv w -> orUndefined (swappedFrame w) = swappedFrame w.
Proof.
  intros [_ [_ _ _ T _ _]]. unfold anchorTruthy in T. unfold orUndefined.
  destruct (swappedFrame w); [now rewrite T|reflexivity].
Qed.

(** C6: a swap that comes back without an image while the loop is armed,
    with or without a swapped frame.  The continuation of [processFrame]
    leaves the swapped frame, the status and the target as they are,
    removes the request and clears [isProcessing]; after the render that
    follows, the swapped frame is still the same (synced on X stays synced
    on X, armed without a frame stays so), and the next request carries it
    as its anchor: it is sent by that very render when a frame can be
    captured, and by the next tick that finds one otherwise. *)
Theorem failed_tick_keeps_anchor
    (w : World) (target : string) (q : GenerateContent) (r : ApiResponse) :
  reachable w ->
  armed (swapDeps w) = true ->
  identityBase64 w = Some target ->
  outstanding w = [q] ->
  swapResult r = None ->
  let w1 := handle (SwapDone 0 r) w in
  let w2 := step w (SwapDone 0 r) in
  (swappedFrame w1 = swappedFrame w /\ identityBase64 w1 = Some target
   /\ cameraStatus w1 = SWAPPING
   /\ isProcessing w1 = false /\ outstanding w1 = [])
  /\ (swappedFrame w2 = swappedFrame w /\ identityBase64 w2 = Some target
      /\ cameraStatus w2 = SWAPPING)
  /\ (forall source, canvas2d w = Some source ->
        outstanding w2 = [swapRequest source target (swappedFrame w)])
  /\ (canvas2d w = None ->
        outstanding w2 = [] /\ isProcessing w2 = false
        /\ forall source,
             outstanding (step (step w2 (Frame (Some source))) Tick)
             = [swapRequest source target (swappedFrame w)]).
Proof.
  intros R A ET EO ER w1 w2.
  pose proof (reachable_inv R) as I.
  destruct (armed_inv _ A) as [St Tr]. cbn [d_status d_identityBase64 swapDeps] in St, Tr.
  assert (B : isProcessing w = true) by (apply inv_busy; [exact I|congruence]).
  assert (E1 : w1 = set_isProcessing false (set_outstanding [] w)).
  { unfold w1, handle, processFrameResumes. rewrite EO, ER. reflexivity. }
  assert (S1 : appSynced w1 = true) by (rewrite E1; exact (inv_appSynced I)).
  assert (A1 : armed (swapDeps w1) = true) by (rewrite E1; exact A).
  assert (D1 : swapDeps w1 <> depSwap w1).
  { rewrite E1. cbn [depSwap set_isProcessing set_outstanding].
    destruct I as [S _]. rewrite <- (settled_deps w S).
    intros H. apply (f_equal d_isProcessing) in H. cbn in H. congruence. }
  assert (R2 : reachable w2) by (apply reach_step; [exact R|reflexivity]).
  pose proof (reachable_inv R2) as I2.
  assert (K : identityBase64 w2 = Some target /\ cameraStatus w2 = SWAPPING).
  { unfold w2, step. fold w1. split.
    - destruct (settle_core w1) as (-> & _). cbn zeta.
      destruct (settled w1); [|destruct (pass_core w1 S1) as (-> & _)];
        rewrite E1; exact ET.
    - unfold settle. destruct (settleN_app 4 w1) as (_ & _ & -> & _).
      rewrite E1. exact St. }
  destruct K as [K1 K2].
  assert (F2 : swappedFrame w2 = swappedFrame w).
  { unfold w2, step. fold w1. destruct (canvas2d w) as [source|] eqn:C.
    - destruct (settle_dispatch (w := w1) (source := source) (target := target)) as (_ & -> & _);
        auto; rewrite E1; auto.
    - destruct (settleN_inert 4 w1 S1 A1) as [_ D]; [right; rewrite E1; exact C|].
      change (d_swappedFrame (swapDeps (settleN 4 w1)) = swappedFrame w).
      rewrite D, E1. reflexivity. }
  split; [|split; [|split]].
  - rewrite E1. cbn. auto.
  - auto.
  - intros source C.
    destruct (settle_dispatch (w := w1) (source := source) (target := target)) as (O & _);
      auto; try (rewrite E1; auto; fail).
    unfold w2, step. fold w1. rewrite O, E1.
    cbn [outstanding swappedFrame set_isProcessing set_outstanding app].
    now rewrite (inv_truthy I).
  - intros C.
    destruct (settleN_inert 4 w1 S1 A1) as [O D]; [right; rewrite E1; exact C|].
    assert (O2 : outstanding w2 = [])
      by (unfold w2, step; fold w1; unfold settle; rewrite O, E1; reflexivity).
    assert (P2 : isProcessing w2 = false).
    { change (d_isProcessing (swapDeps w2) = false). unfold w2, step. fold w1.
      unfold settle. rewrite D, E1. reflexivity. }
    split; [exact O2|]. split; [exact P2|]. intros source.
    assert (E3 : step w2 (Frame (Some source)) = set_canvas2d (Some source) w2).
    { unfold step, handle. apply settle_fixed. exact (inv_settled I2). }
    assert (R3 : reachable (step w2 (Frame (Some source)))) by (apply reach_step; auto).
    rewrite tick_dispatch with (source := source) (target := target).
    + rewrite E3. cbn [outstanding swappedFrame set_canvas2d]. rewrite O2, F2.
      now rewrite (inv_truthy I).
    + exact (reachable_inv R3).
    + rewrite E3. unfold armed.
      cbn [d_status d_identityBase64 swapDeps cameraStatus identityBase64 set_canvas2d].
      rewrite K1, K2. cbn [status_eqb andb]. now rewrite ET in Tr.
    + rewrite E3. exact P2.
    + rewrite E3. reflexivity.
    + rewrite E3. exact K1.
Qed.

Lemma failed_tick_keeps_anchor_witness :
  let w := run init toSynced in
  swappedFrame w = Some "data:image/png;base64,XXXX"
  /\ swappedFrame (step w (SwapDone 0 ApiThrows)) = Some "data:image/png;base64,XXXX"
  /\ outstanding (step w (SwapDone 0 ApiThrows)) =
       [swapRequest "data:image/jpeg;base64,SRC1" "data:image/jpeg;base64,AAAA"
                    (Some "data:image/png;base64,XXXX")].
Proof.
  destruct (@failed_tick_keeps_anchor (run init toSynced)
              "data:image/jpeg;base64,AAAA"
              (swapRequest "data:image/jpeg;base64,SRC1" "data:image/jpeg;base64,AAAA"
                           (Some "data:image/png;base64,XXXX"))
              ApiThrows
              toSynced_reachable eq_refl eq_refl eq_refl eq_refl)
    as (_ & (F & _) & D & _).
  split; [reflexivity|]. split; [exact F|]. apply D. reflexivity.
Defined.

(* ------------------------------------------------------------------ *)
(** ** Leaving SWAPPING *)

Lemma inv_idle w :
  Inv w -> armed (swapDeps w) = false -> swappedFrame w = None /\ interval w = None.
Proof.
  intros I A. split.
  - destruct (swappedFrame w) eqn:E; [|reflexivity].
    rewrite inv_anchor in A; [discriminate|exact I|congruence].
  - now rewrite (inv_interval I), A.
Qed.

Lemma listed_active w i :
  activeListed w = true -> activeIdentityId w = Some i ->
  exists x, activeIdentity w = Some x.
Proof.
  unfold activeListed, activeIdentity, hasId. intros L E. rewrite E in *.
  induction (identities w) as [|x r IH]; [discriminate|].
  cbn in *. destruct (String.eqb (id x) i); [now exists x|auto].
Qed.

Lemma handle_deps e w :
  depUrl (handle e w) = depUrl w /\ depStatus (handle e w) = depStatus w.
Proof.
  destruct e; handlers; try (break; auto; fail).
  destruct (interval w) as [c|]; [|auto].
  unfold processFrame. break; auto.
Qed.

Lemma cameraEffect_target s w :
  identityBase64 (cameraEffect s w) = identityBase64 w.
Proof. unfold cameraEffect. break; reflexivity. Qed.

(** The render after the selection went away drops the target. *)
Lemma pass_deselected w :
  activeIdentityUrl w = None -> depUrl w <> None -> identityBase64 (pass w) = None.
Proof.
  intros U D. unfold pass. rewrite U.
  destruct (depUrl w) as [u|]; [|contradiction]. cbn [option_string_eqb identityEffect].
  set (w1 := set_swappedFrame None _).
  set (w2 := if status_eqb _ _ then w1 else _).
  assert (T2 : identityBase64 w2 = None).
  { unfold w2. destruct (status_eqb _ _); [reflexivity|]. now rewrite cameraEffect_target. }
  destruct (swapDeps_eqb _ _); cbn [identityBase64 set_deps]; [exact T2|].
  now destruct (swapEffect_core (swapDeps w) w2) as (-> & _).
Qed.

(** C3: the swapped frame is held only while the status is SWAPPING.
    Every event that takes the status from SWAPPING to something else
    (the persona button, the power button) ends with the swapped frame
    gone and the interval cleared, in the state the next event finds.
    Deselecting or deleting the active identity leaves the status as it
    is, and ends the same way, the target gone too. *)
Theorem leaving_swapping_clears_anchor (w : World) (e : Event) :
  reachable w -> enabled w e = true ->
  let w' := step w e in
  (swappedFrame w <> None -> cameraStatus w = SWAPPING)
  /\ (cameraStatus w = SWAPPING -> cameraStatus w' <> SWAPPING ->
        swappedFrame w' = None /\ interval w' = None)
  /\ (activeIdentityId w <> None -> activeIdentityId w' = None ->
        swappedFrame w' = None /\ identityBase64 w' = None /\ interval w' = None).
Proof.
  intros R En w'. pose proof (reachable_inv R) as I.
  assert (R' : reachable w') by (now apply reach_step).
  pose proof (reachable_inv R') as I'.
  split; [|split].
  - intros N. now destruct (armed_inv _ (inv_anchor I N)).
  - intros _ N. apply (inv_idle I'). unfold armed. cbn [d_status swapDeps].
    destruct (status_eqb_spec (cameraStatus w') SWAPPING); [contradiction|reflexivity].
  - intros N E.
    assert (T : identityBase64 w' = None).
    { destruct (activeIdentityId w) as [i|] eqn:Ai; [|contradiction].
      destruct (listed_active w (pre_active (inv_pre I)) Ai) as [x Hx].
      assert (U : activeIdentityUrl (handle e w) = None).
      { unfold activeIdentityUrl, activeIdentity.
        destruct (step_app w e) as (Hi & Ha & _). fold w' in Ha.
        rewrite <- Ha, E. cbn. clear. now induction (identities _). }
      assert (D : depUrl (handle e w) <> None).
      { destruct (handle_deps e w) as [-> _].
        destruct I as [S _]. unfold settled in S.
        apply andb_true_iff in S as [S _]. apply andb_true_iff in S as [S _].
        destruct (option_string_eqb_spec (activeIdentityUrl w) (depUrl w)) as [<-|]; [|discriminate].
        unfold activeIdentityUrl. rewrite Hx. discriminate. }
      unfold w', step. destruct (settle_core (handle e w)) as (-> & _). cbn zeta.
      rewrite settled_split. unfold appSynced. rewrite U.
      destruct (depUrl (handle e w)) as [u|] eqn:Du; [|contradiction].
      cbn [option_string_eqb andb]. apply pass_deselected; [exact U|congruence]. }
    destruct (inv_idle I') as [F V].
    + unfold armed. cbn [d_identityBase64 swapDeps]. rewrite T. cbn. apply andb_false_r.
    + auto.
Qed.

Lemma leaving_swapping_clears_anchor_witness :
  let w := run init toSynced in
  swappedFrame w = Some "data:image/png;base64,XXXX"
  /\ swappedFrame (step w ClickSwap) = None
  /\ interval (step w ClickSwap) = None.
Proof.
  destruct (@leaving_swapping_clears_anchor (run init toSynced) ClickSwap
              toSynced_reachable eq_refl) as (_ & L & _).
  split; [reflexivity|]. apply L; [reflexivity|vm_compute; discriminate].
Defined.

(* ------------------------------------------------------------------ *)
(** ** The session status *)

Lemma handle_status e w :
  cameraStatus (handle e w) <> cameraStatus w -> e = ClickPower \/ e = ClickSwap.
Proof.
  destruct e; auto; handlers; intros N; exfalso; apply N; try (break; reflexivity).
  destruct (interval w) as [c|]; [|reflexivity].
  now destruct (processFrame_effects c w) as (_ & _ & _ & _ & -> & _).
Qed.

(** C4: a click on the activate-persona button while the status is
    INACTIVE, or while no identity is selected, leaves the status as it
    is in any state, and in a state the session can reach it changes
    nothing at all; and whenever an event takes the status of a reachable
    state to SWAPPING from another status, the event is a click on that
    button, the status before was ACTIVE, and the selected identity is in
    the list. *)
Theorem swap_toggle_gated (w : World) :
  (cameraStatus w = INACTIVE \/ truthy (activeIdentityId w) = false ->
   handle ClickSwap w = w
   /\ cameraStatus (step w ClickSwap) = cameraStatus w
   /\ (reachable w -> step w ClickSwap = w))
  /\ (reachable w ->
      forall e, enabled w e = true ->
        cameraStatus w <> SWAPPING -> cameraStatus (step w e) = SWAPPING ->
        e = ClickSwap /\ cameraStatus w = ACTIVE
        /\ exists x, activeIdentity w = Some x).
Proof.
  split.
  - intros H.
    assert (E : handle ClickSwap w = w).
    { unfold handle, clickSwap, swapDisabled.
      destruct H as [-> | ->]; [reflexivity|now rewrite orb_true_r]. }
    split; [exact E|]. split.
    + destruct (step_app w ClickSwap) as (_ & _ & -> & _). now rewrite E.
    + intros R. unfold step. rewrite E. apply settle_fixed, (reachable_inv R).
  - intros R e En N S. pose proof (reachable_inv R) as I.
    destruct (step_app w e) as (_ & _ & Hs & _). rewrite Hs in S.
    destruct (handle_status e w) as [-> | ->]; [congruence| |].
    + exfalso. cbn in S. destruct (cameraStatus w); discriminate.
    + split; [reflexivity|]. cbn [handle] in S. unfold clickSwap in S.
      destruct (swapDisabled w) eqn:Dis; [contradiction|].
      unfold swapDisabled in Dis. apply orb_false_iff in Dis as [D1 D2].
      apply negb_false_iff in D2. split.
      * pose proof (pre_loading (inv_pre I)) as L.
        destruct (cameraStatus w); try reflexivity; try contradiction; discriminate.
      * destruct (activeIdentityId w) as [i|] eqn:A; [|discriminate].
        exact (listed_active w (pre_active (inv_pre I)) A).
Qed.

Lemma swap_toggle_gated_witness :
  step init ClickSwap = init
  /\ step (step init ClickPower) ClickSwap = step init ClickPower.
Proof.
  split.
  - apply (proj1 (swap_toggle_gated init)); [left; reflexivity|apply reach_init].
  - apply (proj1 (swap_toggle_gated (step init ClickPower)));
      [right; reflexivity|exact (reach_step ClickPower reach_init eq_refl)].
Defined.

(** C8, as stated, fails: the power button takes the status from
    INACTIVE straight to ACTIVE, not to LOADING, and the status is still
    ACTIVE after the camera could not be acquired. *)
Lemma power_on_counterexample :
  cameraStatus (step init ClickPower) = ACTIVE
  /\ cameraStatus (step init ClickPower) <> LOADING
  /\ cameraRequests (step init ClickPower) = 1
  /\ cameraStatus (step (step init ClickPower) (CameraDone None)) = ACTIVE
  /\ stream (step (step init ClickPower) (CameraDone None)) = None.
Proof. repeat split. discriminate. Qed.

(** C8, amended: from INACTIVE the power button takes the status to
    ACTIVE at once and starts one camera acquisition; when the acquisition
    ends, the status is ACTIVE whether it succeeded or not: success stores
    the stream, failure leaves the stream as it was.  No state the session
    can reach has the status LOADING. *)
Theorem power_on_goes_active (w : World) (r : option nat) :
  reachable w -> cameraStatus w = INACTIVE ->
  let w1 := step w ClickPower in
  let w2 := step w1 (CameraDone r) in
  cameraStatus w1 = ACTIVE
  /\ cameraRequests w1 = S (cameraRequests w)
  /\ cameraStatus w2 = ACTIVE
  /\ cameraRequests w2 = cameraRequests w
  /\ stream w2 = match r with Some s => Some s | None => stream w1 end
  /\ (forall w', reachable w' -> cameraStatus w' <> LOADING).
Proof.
  intros R St w1 w2. pose proof (reachable_inv R) as I.
  assert (S1 : cameraStatus w1 = ACTIVE).
  { unfold w1. destruct (step_app w ClickPower) as (_ & _ & -> & _).
    cbn. now rewrite St. }
  assert (C1 : cameraRequests w1 = S (cameraRequests w)).
  { unfold w1, step. destruct (settle_core (handle ClickPower w)) as (_ & _ & -> & _).
    cbn zeta. destruct I as [S _]. unfold settled in S.
    apply andb_true_iff in S as [S Sd]. apply andb_true_iff in S as [Su Ss].
    destruct (status_eqb_spec (cameraStatus w) (depStatus w)) as [Es|]; [|discriminate].
    unfold settled, pass, handle, toggleCamera. rewrite St.
    change (activeIdentityUrl (set_cameraStatus ACTIVE w)) with (activeIdentityUrl w).
    cbn [depUrl depStatus cameraStatus set_cameraStatus]. rewrite Su, <- Es, St.
    cbn [status_eqb andb]. unfold cameraEffect. cbn [status_eqb negb].
    cbn [cameraRequests set_deps].
    match goal with
    | |- cameraRequests (if ?b then _ else _) = _ => destruct b
    end; [reflexivity|].
    match goal with
    | |- context [swapEffect ?c ?x] =>
        destruct (swapEffect_core c x) as (_ & _ & -> & _)
    end. reflexivity. }
  assert (E2 : w2 = cameraSettled r w1).
  { unfold w2, step, handle. apply settle_fixed.
    unfold cameraSettled. rewrite C1.
    transitivity (settled w1); [now destruct r|apply settle_settled]. }
  split; [exact S1|]. split; [exact C1|].
  rewrite E2. unfold cameraSettled. rewrite C1.
  split; [destruct r; exact S1|]. split; [now destruct r|]. split; [now destruct r|].
  intros w' R'. exact (pre_loading (inv_pre (reachable_inv R'))).
Qed.

Lemma power_on_goes_active_witness :
  cameraStatus (step init ClickPower) = ACTIVE
  /\ cameraStatus (step (step init ClickPower) (CameraDone (Some 7))) = ACTIVE
  /\ stream (step (step init ClickPower) (CameraDone (Some 7))) = Some 7.
Proof.
  destruct (@power_on_goes_active init (Some 7) reach_init eq_refl)
    as (A & _ & B & _ & C & _).
  exact (conj A (conj B C)).
Defined.

(* ------------------------------------------------------------------ *)
(** ** The identity store *)

Lemma hasId_filter_self i ids :
  existsb (fun x => String.eqb (id x) i)
          (filter (fun x => negb (String.eqb (id x) i)) ids) = false.
Proof.
  induction ids as [|x r IH]; [reflexivity|]. cbn.
  destruct (String.eqb (id x) i) eqn:E; cbn; [exact IH|now rewrite E, IH].
Qed.

(** C10: deleting [i] keeps the identities whose id is not [i], in their
    order, and no identity with id [i]; a selection that was [i] is
    cleared by the same event, any other selection is left as it is, and so
    is the selection when no identity had the id [i]; in every state the
    session can reach, and after the deletion, the selected id is the id of
    an identity of the list, so it is never an id that has been removed. *)
Theorem delete_identity_clears_selection (w : World) (i : string) :
  reachable w ->
  let w' := step w (ClickDelete i) in
  identities w' = filter (fun x => negb (String.eqb (id x) i)) (identities w)
  /\ hasId i w' = false
  /\ (forall j, j <> i -> hasId j w' = hasId j w)
  /\ (activeIdentityId w = Some i -> activeIdentityId w' = None)
  /\ (activeIdentityId w <> Some i -> activeIdentityId w' = activeIdentityId w)
  /\ (hasId i w = false -> activeIdentityId w' = activeIdentityId w)
  /\ activeIdentityId w' <> Some i
  /\ activeListed w = true
  /\ activeListed w' = true.
Proof.
  intros R w'. pose proof (pre_active (inv_pre (reachable_inv R))) as L.
  destruct (step_app w (ClickDelete i)) as (Hi & Ha & _).
  fold w' in Hi, Ha. cbn [handle] in Hi, Ha. unfold deleteIdentity in Hi, Ha.
  assert (Ei : identities w' = filter (fun x => negb (String.eqb (id x) i)) (identities w)).
  { rewrite Hi. now destruct (option_string_eqb _ _). }
  assert (Ea : activeIdentityId w' =
               if option_string_eqb (activeIdentityId w) (Some i) then None
               else activeIdentityId w).
  { rewrite Ha. now destruct (option_string_eqb _ _). }
  clear Hi Ha.
  assert (Hj : forall j, j <> i -> hasId j w' = hasId j w).
  { intros j N. unfold hasId. rewrite Ei. apply hasId_filter.
    destruct (String.eqb_spec j i); [contradiction|reflexivity]. }
  repeat split.
  - exact Ei.
  - unfold hasId. rewrite Ei. apply hasId_filter_self.
  - exact Hj.
  - intros E. rewrite Ea, E. cbn. now rewrite String.eqb_refl.
  - intros N. rewrite Ea.
    now destruct (option_string_eqb_spec (activeIdentityId w) (Some i)).
  - intros H. rewrite Ea.
    destruct (option_string_eqb_spec (activeIdentityId w) (Some i)) as [E|]; [|reflexivity].
    unfold activeListed in L. rewrite E in L. congruence.
  - rewrite Ea.
    destruct (option_string_eqb_spec (activeIdentityId w) (Some i)); [discriminate|assumption].
  - exact L.
  - unfold activeListed in *. rewrite Ea.
    destruct (option_string_eqb_spec (activeIdentityId w) (Some i)) as [E|N]; [reflexivity|].
    destruct (activeIdentityId w) as [j|]; [|reflexivity].
    rewrite Hj; [exact L|congruence].
Qed.

Lemma delete_identity_clears_selection_witness :
  let w := run init [ClickCard "1"] in
  activeIdentityId w = Some "1"
  /\ activeIdentityId (step w (ClickDelete "1")) = None
  /\ map id (identities (step w (ClickDelete "1"))) = ["2"].
Proof.
  assert (R : reachable (run init [ClickCard "1"]))
    by (apply reachable_run; [apply reach_init|reflexivity]).
  destruct (@delete_identity_clears_selection (run init [ClickCard "1"]) "1" R)
    as (I & _ & _ & A & _).
  split; [reflexivity|]. split; [apply A; reflexivity|].
  rewrite I. reflexivity.
Defined.

(** C5, as stated, fails: the refinement of an uploaded face throws,
    [refineIdentity] resolves with null, and the identity is marked
    ready, not error. *)
Lemma refinement_failure_counterexample :
  let w1 := step init (Upload "face.png" "data:image/png;base64,AAAA" 1700000000000) in
  let w2 := step w1 (RefineDone 0 ApiThrows) in
  refineIdentity ApiThrows = None
  /\ map (fun x => (id x, embeddingStatus x)) (identities w1) =
       [ ("1", ready); ("2", ready); ("1700000000000", processing) ]
  /\ map (fun x => (id x, embeddingStatus x)) (identities w2) =
       [ ("1", ready); ("2", ready); ("1700000000000", ready) ].
Proof. repeat split. Qed.

Lemma nth_error_last {A} (l : list A) (x : A) :
  nth_error (l ++ [x]) (List.length l) = Some x.
Proof. induction l; [reflexivity|assumption]. Qed.

(** C5, amended: an upload appends the new identity with status
    processing; when its refinement comes back, with a text, with nothing
    or with an exception ([refineIdentity] then resolves with null), the
    identity is marked ready all the same and no identity is ever marked
    error by it; the entry stays in the list, its card can be clicked, the
    upload is over and the session status is as before. *)
Theorem refinement_outcome_ignored
    (w : World) (fileName base64Data : string) (now : N) (r : ApiResponse) :
  let fresh s :=
    {| id := toString now; name := nth 0 (split "." fileName) "";
       imageUrl := base64Data; embeddingStatus := s |} in
  let w1 := step w (Upload fileName base64Data now) in
  let w2 := step w1 (RefineDone (List.length (refinements w)) r) in
  identities w1 = identities w ++ [fresh processing]
  /\ identities w2 = map (markReady (toString now)) (identities w) ++ [fresh ready]
  /\ (forall x, In x (identities w2) -> embeddingStatus x = error ->
        In x (identities w) /\ id x <> toString now)
  /\ enabled w2 (ClickCard (toString now)) = true
  /\ isUploading w2 = false
  /\ cameraStatus w2 = cameraStatus w.
Proof.
  intros fresh w1 w2.
  destruct (step_app w (Upload fileName base64Data now)) as (I1 & _ & S1 & _ & _ & F1).
  fold w1 in I1, S1, F1.
  change (identities w1 = identities w ++ [fresh processing]) in I1.
  change (cameraStatus w1 = cameraStatus w) in S1.
  change (refinements w1 = refinements w ++
            [(toString now,
              refineRequest (nth 1 (split "," base64Data) "")
                            "Map facial features for real-time overlay.")]) in F1.
  assert (H2 : handle (RefineDone (List.length (refinements w)) r) w1 =
               set_isUploading false
                 (set_identities (map (markReady (toString now)) (identities w1))
                    (set_refinements (dropNth (List.length (refinements w)) (refinements w1)) w1))).
  { cbn [handle]. unfold uploadRefined. now rewrite F1, nth_error_last. }
  destruct (step_app w1 (RefineDone (List.length (refinements w)) r))
    as (I2 & _ & S2 & _ & U2 & _).
  fold w2 in I2, S2, U2. rewrite H2 in I2, S2, U2.
  change (identities w2 = map (markReady (toString now)) (identities w1)) in I2.
  change (cameraStatus w2 = cameraStatus w1) in S2.
  change (isUploading w2 = false) in U2.
  rewrite I1, map_app in I2. cbn [map] in I2. unfold markReady at 2 in I2.
  unfold fresh in I2 at 1. cbn [id name imageUrl] in I2. rewrite String.eqb_refl in I2.
  fold (fresh ready) in I2.
  split; [exact I1|]. split; [exact I2|]. split; [|split; [|split]].
  - intros x Hx Ex. rewrite I2 in Hx. apply in_app_iff in Hx as [Hx|[<-|[]]]; [|discriminate].
    apply in_map_iff in Hx as (y & <- & Hy). unfold markReady in *.
    destruct (String.eqb_spec (id y) (toString now)); [discriminate|auto].
  - cbn [enabled]. unfold hasId. rewrite I2, existsb_app.
    unfold fresh. cbn [existsb id]. now rewrite String.eqb_refl, orb_true_r.
  - exact U2.
  - now rewrite S2, S1.
Qed.

Lemma refinement_outcome_ignored_witness :
  let w1 := step init (Upload "face.png" "data:image/png;base64,AAAA" 1700000000000) in
  let w2 := step w1 (RefineDone 0 ApiThrows) in
  map embeddingStatus (identities w2) = [ready; ready; ready]
  /\ enabled w2 (ClickCard "1700000000000") = true.
Proof.
  destruct (refinement_outcome_ignored init "face.png" "data:image/png;base64,AAAA"
              1700000000000 ApiThrows) as (_ & I & _ & E & _).
  split; [|exact E].
  exact (f_equal (map embeddingStatus) I).
Defined.

(* ------------------------------------------------------------------ *)
(** ** Switching the identity while synced *)

(** C2 on a run of the code: the loop is synced on identity 1 with the
    frame X, and identity 2 is selected.  The identity effect only
    recomputes the target: X is still held after the click, and still held
    when the new target is resolved.  When the request in flight fails, the
    request that follows pairs the new target with X. *)
Theorem identity_switch_keeps_anchor :
  let X := "data:image/png;base64,XXXX" in
  let w := run init toSynced in
  let w1 := step w (ClickCard "2") in
  let w2 := step w1 (ImageDone 0 (Loaded (Some "data:image/jpeg;base64,BBBB"))) in
  let w3 := step w2 (SwapDone 0 ApiThrows) in
  (activeIdentityId w = Some "1" /\ cameraStatus w = SWAPPING
   /\ identityBase64 w = Some "data:image/jpeg;base64,AAAA"
   /\ swappedFrame w = Some X)
  /\ (activeIdentityId w1 = Some "2" /\ cameraStatus w1 = SWAPPING
      /\ swappedFrame w1 = Some X)
  /\ (identityBase64 w2 = Some "data:image/jpeg;base64,BBBB"
      /\ swappedFrame w2 = Some X)
  /\ map parts (outstanding w3) =
       [ [ InlineData "SRC1" "image/jpeg"; InlineData "BBBB" "image/jpeg";
           InlineData "XXXX" "image/jpeg"; Text (instruction true) ] ].
Proof. vm_compute. repeat split. Qed.

(* ------------------------------------------------------------------ *)
(** ** The render loop *)

Lemma pass_fixed w : settled w = true -> pass w = w.
Proof.
  unfold settled. intros H.
  apply andb_true_iff in H as [H Hd]. apply andb_true_iff in H as [Hu Hs].
  unfold pass. rewrite Hu, Hs, Hd.
  destruct (option_string_eqb_spec (activeIdentityUrl w) (depUrl w)) as [->|]; [|discriminate].
  destruct (status_eqb_spec (cameraStatus w) (depStatus w)) as [->|]; [|discriminate].
  destruct (swapDeps_eqb_spec (swapDeps w) (depSwap w)) as [->|]; [|discriminate].
  now destruct w.
Qed.

(** The effects of [CameraFeed] set state they depend on, yet from any
    state whatever three renders reach a state in which no effect has
    anything left to run; rendering such a state again changes nothing,
    and [settle] returns such a state. *)
Theorem render_loop_stabilises (w : World) :
  settled (passes 3 w) = true
  /\ settled (settle w) = true
  /\ pass (settle w) = settle w
  /\ (settled w = true -> settle w = w).
Proof.
  split; [apply settled_three_passes|]. split; [apply settle_settled|].
  split; [apply pass_fixed, settle_settled|apply settle_fixed].
Qed.

Lemma render_loop_stabilises_witness :
  settle (handle ClickPower init) <> handle ClickPower init
  /\ pass (settle (handle ClickPower init)) = settle (handle ClickPower init).
Proof.
  split; [vm_compute; discriminate|].
  exact (proj1 (proj2 (proj2 (render_loop_stabilises (handle ClickPower init))))).
Defined.

(** While [isProcessing] is set a render sends nothing and leaves it set. *)
Lemma pass_while_busy w :
  isProcessing w = true ->
  outstanding (pass w) = outstanding w /\ isProcessing (pass w) = true.
Proof.
  intros B. unfold pass.
  set (w1 := if option_string_eqb _ _ then w else _).
  set (w2 := if status_eqb _ _ then w1 else _).
  assert (F1 : outstanding w1 = outstanding w /\ isProcessing w1 = isProcessing w).
  { unfold w1. destruct (option_string_eqb _ _); [auto|apply identityEffect_flight]. }
  assert (F2 : outstanding w2 = outstanding w /\ isProcessing w2 = true).
  { unfold w2. destruct (status_eqb _ _); [now rewrite <- B|].
    destruct (cameraEffect_flight (cameraStatus w) w1) as [-> ->].
    now rewrite <- B. }
  destruct (swapDeps_eqb _ _); cbn [outstanding isProcessing set_deps]; [exact F2|].
  unfold swapEffect, processFrame. cbn [d_isProcessing swapDeps]. rewrite B.
  rewrite !orb_true_r. now destruct (_ && _).
Qed.

Lemma settleN_while_busy n w :
  isProcessing w = true ->
  outstanding (settleN n w) = outstanding w /\ isProcessing (settleN n w) = true.
Proof.
  revert w. induction n as [|n IH]; intros w B; cbn [settleN]; [auto|].
  destruct (settled w); [auto|].
  destruct (pass_while_busy w B) as [O P].
  destruct (IH (pass w) P) as [-> ->]. auto.
Qed.

(** While a swap request is in flight nothing but its completion touches
    it: after any click, tick, upload, image load or camera event the same
    request is still the one in flight and [isProcessing] is still set, so
    no second request is sent and the first one is not forgotten. *)
Theorem busy_until_response (w : World) (e : Event) :
  reachable w -> isProcessing w = true -> isSwapDone e = false ->
  outstanding (step w e) = outstanding w
  /\ isProcessing (step w e) = true.
Proof.
  intros R B N. pose proof (reachable_inv R) as I.
  assert (H : outstanding (handle e w) = outstanding w
              /\ isProcessing (handle e w) = true).
  { destruct e; try discriminate; handlers; try (split; break; auto; fail).
    rewrite (inv_interval I). destruct (armed (swapDeps w)); [|auto].
    unfold processFrame. cbn [d_isProcessing swapDeps]. rewrite B, orb_true_r. auto. }
  destruct H as [O P]. unfold step, settle.
  destruct (settleN_while_busy 4 (handle e w) P) as [-> ->]. auto.
Qed.

Lemma busy_until_response_witness :
  let w := run init toArmed in
  outstanding (step w ClickPower) = outstanding w
  /\ isProcessing (step w ClickPower) = true.
Proof.
  exact (@busy_until_response (run init toArmed) ClickPower
           toArmed_reachable eq_refl eq_refl).
Defined.

(* ------------------------------------------------------------------ *)
(** ** Swap results *)

Lemma pass_idle w :
  appSynced w = true -> armed (swapDeps w) = false ->
  outstanding (pass w) = outstanding w
  /\ isProcessing (pass w) = isProcessing w
  /\ armed (swapDeps (pass w)) = false.
Proof.
  intros H A. rewrite (pass_synced_world w H).
  destruct (swapDeps_eqb _ _); [auto|].
  unfold swapEffect. fold (armed (swapDeps w)). rewrite A. auto.
Qed.

Lemma settleN_idle n w :
  appSynced w = true -> armed (swapDeps w) = false ->
  outstanding (settleN n w) = outstanding w
  /\ isProcessing (settleN n w) = isProcessing w
  /\ armed (swapDeps (settleN n w)) = false.
Proof.
  revert w. induction n as [|n IH]; intros w H A; cbn [settleN]; [auto|].
  destruct (settled w); [auto|].
  destruct (pass_idle w H A) as (O & P & A').
  destruct (IH (pass w) (pass_appSynced w) A') as (-> & -> & ->). auto.
Qed.

(** A swap result that arrives when the loop is no longer armed (the
    persona was switched off, the camera shut down or the identity
    deselected while the request was in flight) is not kept: whatever the
    response holds, the state after it has no swapped frame, no request in
    flight, [isProcessing] cleared and no interval. *)
Theorem late_result_discarded (w : World) (q : GenerateContent) (r : ApiResponse) :
  reachable w -> armed (swapDeps w) = false -> outstanding w = [q] ->
  let w' := step w (SwapDone 0 r) in
  swappedFrame w' = None /\ outstanding w' = []
  /\ isProcessing w' = false /\ interval w' = None.
Proof.
  intros R A EO w'. pose proof (reachable_inv R) as I.
  assert (R' : reachable w') by (apply reach_step; [exact R|reflexivity]).
  set (h := handle (SwapDone 0 r) w).
  assert (Hh : outstanding h = [] /\ isProcessing h = false
               /\ appSynced h = true /\ armed (swapDeps h) = false).
  { unfold h, handle, processFrameResumes. rewrite EO. cbn [nth_error dropNth].
    destruct (truthy (swapResult r));
      (split; [reflexivity|]; split; [reflexivity|];
       split; [exact (inv_appSynced I)|exact A]). }
  destruct Hh as (O & P & S & A').
  destruct (settleN_idle 4 h S A') as (O' & P' & A'').
  destruct (inv_idle (reachable_inv R') A'') as [F V].
  repeat split; [exact F| |  |exact V].
  - unfold w', step, settle. fold h. now rewrite O'.
  - unfold w', step, settle. fold h. now rewrite P'.
Qed.

Lemma late_result_discarded_witness :
  let w := step (run init toSynced) ClickSwap in
  cameraStatus w = ACTIVE
  /\ swappedFrame (step w (SwapDone 0 (imageResponse "YYYY"))) = None
  /\ outstanding (step w (SwapDone 0 (imageResponse "YYYY"))) = [].
Proof.
  assert (R : reachable (step (run init toSynced) ClickSwap))
    by (apply reach_step; [exact toSynced_reachable|reflexivity]).
  destruct (@late_result_discarded (step (run init toSynced) ClickSwap)
              (swapRequest "data:image/jpeg;base64,SRC1" "data:image/jpeg;base64,AAAA"
                           (Some "data:image/png;base64,XXXX"))
              (imageResponse "YYYY") R eq_refl eq_refl) as (F & O & _).
  split; [reflexivity|]. split; [exact F|exact O].
Defined.

Lemma firstInline_truthy ps y : firstInline ps = Some y -> truthy (Some y) = true.
Proof.
  induction ps as [|[t|d] ps IH]; cbn; [discriminate|exact IH|].
  intros E. injection E as <-. reflexivity.
Qed.

Lemma swapResult_truthy r y : swapResult r = Some y -> truthy (Some y) = true.
Proof.
  destruct r as [|t [[|[ps|] cs]|]]; cbn; try discriminate.
  apply firstInline_truthy.
Qed.

(** A swap that comes back with an image while the loop is armed: the
    image becomes the swapped frame, whatever frame was held before, and
    the next request carries it as its anchor, with the same target; it is
    sent by the render that follows when a frame can be captured, and
    nothing is sent otherwise. *)
Theorem successful_tick_advances_anchor
    (w : World) (target Y : string) (q : GenerateContent) (r : ApiResponse) :
  reachable w ->
  armed (swapDeps w) = true ->
  identityBase64 w = Some target ->
  outstanding w = [q] ->
  swapResult r = Some Y ->
  let w' := step w (SwapDone 0 r) in
  swappedFrame w' = Some Y
  /\ identityBase64 w' = Some target
  /\ cameraStatus w' = SWAPPING
  /\ (forall source, canvas2d w = Some source ->
        outstanding w' = [swapRequest source target (Some Y)]
        /\ isProcessing w' = true)
  /\ (canvas2d w = None -> outstanding w' = [] /\ isProcessing w' = false).
Proof.
  intros R A ET EO ER w'. pose proof (reachable_inv R) as I.
  destruct (armed_inv _ A) as [St Tr]. cbn [d_status d_identityBase64 swapDeps] in St, Tr.
  assert (B : isProcessing w = true) by (apply inv_busy; [exact I|congruence]).
  pose proof (swapResult_truthy r ER) as TY.
  set (w1 := handle (SwapDone 0 r) w).
  assert (E1 : w1 = set_isProcessing false
                      (set_swappedFrame (Some Y) (set_outstanding [] w))).
  { unfold w1, handle, processFrameResumes. rewrite EO, ER, TY. reflexivity. }
  assert (S1 : appSynced w1 = true) by (rewrite E1; exact (inv_appSynced I)).
  assert (A1 : armed (swapDeps w1) = true) by (rewrite E1; exact A).
  assert (D1 : swapDeps w1 <> depSwap w1).
  { rewrite E1. cbn [depSwap set_isProcessing set_outstanding set_swappedFrame].
    destruct I as [S _]. rewrite <- (settled_deps w S).
    intros H. apply (f_equal d_isProcessing) in H. cbn in H. congruence. }
  assert (K : identityBase64 w' = Some target /\ cameraStatus w' = SWAPPING).
  { unfold w', step. fold w1. split.
    - destruct (settle_core w1) as (-> & _). cbn zeta.
      destruct (settled w1); [|destruct (pass_core w1 S1) as (-> & _)];
        rewrite E1; exact ET.
    - unfold settle. destruct (settleN_app 4 w1) as (_ & _ & -> & _).
      rewrite E1. exact St. }
  assert (F : swappedFrame w' = Some Y).
  { unfold w', step. fold w1. destruct (canvas2d w) as [source|] eqn:C.
    - destruct (settle_dispatch (w := w1) (source := source) (target := target))
        as (_ & -> & _); auto; rewrite E1; auto.
    - destruct (settleN_inert 4 w1 S1 A1) as [_ D]; [right; rewrite E1; exact C|].
      change (d_swappedFrame (swapDeps (settleN 4 w1)) = Some Y).
      rewrite D, E1. reflexivity. }
  split; [exact F|]. split; [apply K|]. split; [apply K|]. split.
  - intros source C.
    destruct (settle_dispatch (w := w1) (source := source) (target := target))
      as (O & _ & P); auto; try (rewrite E1; auto; fail).
    unfold w', step. fold w1. rewrite O, P, E1.
    cbn [outstanding swappedFrame set_isProcessing set_outstanding set_swappedFrame app].
    unfold orUndefined. now rewrite TY.
  - intros C.
    destruct (settleN_inert 4 w1 S1 A1) as [O D]; [right; rewrite E1; exact C|].
    split.
    + unfold w', step, settle. fold w1. rewrite O, E1. reflexivity.
    + change (d_isProcessing (swapDeps w') = false). unfold w', step, settle. fold w1.
      rewrite D, E1. reflexivity.
Qed.

Lemma successful_tick_advances_anchor_witness :
  let w := run init toSynced in
  swappedFrame w = Some "data:image/png;base64,XXXX"
  /\ swappedFrame (step w (SwapDone 0 (imageResponse "YYYY")))
     = Some "data:image/png;base64,YYYY"
  /\ outstanding (step w (SwapDone 0 (imageResponse "YYYY"))) =
       [swapRequest "data:image/jpeg;base64,SRC1" "data:image/jpeg;base64,AAAA"
                    (Some "data:image/png;base64,YYYY")].
Proof.
  destruct (@successful_tick_advances_anchor (run init toSynced)
              "data:image/jpeg;base64,AAAA" "data:image/png;base64,YYYY"
              (swapRequest "data:image/jpeg;base64,SRC1" "data:image/jpeg;base64,AAAA"
                           (Some "data:image/png;base64,XXXX"))
              (imageResponse "YYYY")
              toSynced_reachable eq_refl eq_refl eq_refl eq_refl)
    as (F & _ & _ & D & _).
  split; [reflexivity|]. split; [exact F|]. apply D. reflexivity.
Defined.

(* ------------------------------------------------------------------ *)
(** ** More on the inference client *)

Lemma includes_head c p r : includes c p = false -> includes c (p ++ String c r) = true.
Proof. intros H. rewrite includes_app. cbn. now rewrite Ascii.eqb_refl, orb_true_r. Qed.

Lemma nth_split_no_sep c s d :
  forall k, includes c (nth k (split c s) d) = true -> includes c d = true.
Proof.
  induction s as [|a r IH]; intros k; cbn [split].
  - destruct k as [|[|k]]; cbn; auto; discriminate.
  - destruct (Ascii.eqb a c) eqn:E.
    + destruct k as [|k]; cbn [nth]; [cbn; discriminate|apply IH].
    + destruct (split c r) as [|h t] eqn:Sp; [now apply split_nonempty in Sp|].
      destruct k as [|k]; cbn [nth].
      * cbn [includes]. rewrite E. cbn [orb]. exact (IH 0).
      * exact (IH (S k)).
Qed.

(** What [performFaceSwap] sends never holds a comma, whatever string it
    was given, so stripping what was already stripped changes nothing: a
    payload can be passed on as it is, or with its envelope. *)
Theorem clean_idempotent (x : string) :
  includes "," (clean x) = false /\ clean (clean x) = clean x.
Proof.
  assert (H : includes "," (clean x) = false).
  { unfold clean. destruct (includes "," x) eqn:E; [|exact E].
    destruct (includes "," (nth 1 (split "," x) x)) eqn:N; [|reflexivity].
    destruct (split_second "," x E) as [p Hp].
    rewrite (nth_error_nth _ _ x Hp) in N.
    assert (N' : includes "," (nth 1 (split "," x) EmptyString) = true)
      by (rewrite (nth_error_nth _ _ EmptyString Hp); exact N).
    apply nth_split_no_sep in N'. discriminate. }
  split; [exact H|]. now apply clean_plain.
Qed.



Lemma firstInline_none ps : firstInline ps = None <-> forallb isText ps = true.
Proof.
  induction ps as [|[t|d] ps IH]; cbn; [tauto|exact IH|].
  split; discriminate.
Qed.

(** Which responses count as a failure.  [performFaceSwap] looks at the
    first candidate only: the text of the response and the candidates after
    the first make no difference; it returns the first inline part of that
    candidate, skipping the text parts before it and ignoring whatever
    follows; and it returns null exactly when the call threw, there are no
    candidates, the first candidate has no parts, or all its parts are
    text. *)
Theorem swap_result_first_image
    (text : option string) (c : option (list ResponsePart))
    (cs : list (option (list ResponsePart)))
    (texts rest : list ResponsePart) (d : string) :
  swapResult (ApiReturns text (Some (c :: cs))) = swapResult (ApiReturns None (Some [c]))
  /\ (forallb isText texts = true ->
        swapResult (ApiReturns text (Some (Some (texts ++ RInline d :: rest) :: cs)))
        = Some ("data:image/png;base64," ++ d)%string)
  /\ (forall r, swapResult r = None <->
        r = ApiThrows
        \/ (exists t, r = ApiReturns t None)
        \/ (exists t, r = ApiReturns t (Some []))
        \/ (exists t cs', r = ApiReturns t (Some (None :: cs')))
        \/ (exists t ps cs', r = ApiReturns t (Some (Some ps :: cs'))
                             /\ forallb isText ps = true)).
Proof.
  split; [now destruct c|]. split.
  - intros T. cbn. induction texts as [|[t|x] ts IH]; cbn in *; [reflexivity|auto|discriminate].
  - intros r. split.
    + destruct r as [|t [[|[ps|] cs']|]]; cbn; intros E.
      * now left.
      * right. right. left. now exists t.
      * right. right. right. right. exists t, ps, cs'. split; [reflexivity|].
        now apply firstInline_none.
      * right. right. right. left. now exists t, cs'.
      * right. left. now exists t.
    + intros [->|[[t ->]|[[t ->]|[(t & cs' & ->)|(t & ps & cs' & -> & T)]]]]; cbn; auto.
      now apply firstInline_none.
Qed.

Lemma swap_result_first_image_witness :
  swapResult (ApiReturns (Some "done")
                (Some [Some [RText "a"; RInline "XXXX"; RInline "ZZZZ"]; Some [RInline "WWWW"]]))
  = Some "data:image/png;base64,XXXX".
Proof.
  exact (proj1 (proj2 (swap_result_first_image (Some "done") None
                         [Some [RInline "WWWW"]] [RText "a"] [RInline "ZZZZ"] "XXXX"))
               eq_refl).
Defined.

(* ------------------------------------------------------------------ *)
(** ** More on the identity store *)

Lemma markReady_fields n x :
  id (markReady n x) = id x /\ name (markReady n x) = name x
  /\ imageUrl (markReady n x) = imageUrl x.
Proof. unfold markReady. now destruct (String.eqb (id x) n). Qed.

Lemma markReady_absent n ids :
  existsb (fun x => String.eqb (id x) n) ids = false -> map (markReady n) ids = ids.
Proof.
  induction ids as [|x r IH]; [reflexivity|]. cbn. intros H.
  apply orb_false_iff in H as [Hx Hr]. unfold markReady at 1. now rewrite Hx, IH.
Qed.

(** When a refinement comes back, the list keeps its identities, their
    order, ids, names and images, and the selection; an identity either is
    as it was or is now ready.  If the identity was deleted while its
    refinement was running, the list is left exactly as it is: nothing is
    brought back. *)
Theorem refinement_keeps_list (w : World) (k : nat) (r : ApiResponse) :
  let w' := step w (RefineDone k r) in
  map id (identities w') = map id (identities w)
  /\ map name (identities w') = map name (identities w)
  /\ map imageUrl (identities w') = map imageUrl (identities w)
  /\ activeIdentityId w' = activeIdentityId w
  /\ (forall x, In x (identities w') ->
        In x (identities w) \/ embeddingStatus x = ready)
  /\ (forall i q, nth_error (refinements w) k = Some (i, q) ->
        hasId i w = false -> identities w' = identities w).
Proof.
  intros w'. subst w'. destruct (step_app w (RefineDone k r)) as (-> & -> & _).
  change (handle (RefineDone k r) w) with (uploadRefined k (refineIdentity r) w).
  unfold uploadRefined.
  destruct (nth_error (refinements w) k) as [[n q']|] eqn:E.
  - cbn [identities activeIdentityId set_isUploading set_identities set_refinements].
    rewrite !map_map. repeat split.
    + apply map_ext. intros x. apply markReady_fields.
    + apply map_ext. intros x. apply markReady_fields.
    + apply map_ext. intros x. apply markReady_fields.
    + intros x Hx. apply in_map_iff in Hx as (y & <- & Hy). unfold markReady.
      destruct (String.eqb (id y) n); [now right|now left].
    + intros i q Eq H. injection Eq as <- <-. now apply markReady_absent.
  - repeat split; auto; discriminate.
Qed.

Lemma refinement_keeps_list_witness :
  let w := run init [Upload "face.png" "data:image/png;base64,AAAA" 1700000000000;
                     ClickDelete "1700000000000"] in
  map id (identities w) = ["1"; "2"]
  /\ identities (step w (RefineDone 0 ApiThrows)) = identities w.
Proof.
  destruct (refinement_keeps_list
              (run init [Upload "face.png" "data:image/png;base64,AAAA" 1700000000000;
                         ClickDelete "1700000000000"]) 0 ApiThrows)
    as (_ & _ & _ & _ & _ & H).
  split; [reflexivity|].
  exact (H "1700000000000"
           (refineRequest "AAAA" "Map facial features for real-time overlay.")
           eq_refl eq_refl).
Defined.

Lemma processFrame_uploads c w :
  isUploading (processFrame c w) = isUploading w
  /\ refinements (processFrame c w) = refinements w.
Proof. unfold processFrame. break; auto. Qed.

(** Uploads are taken one at a time: the file input is disabled from the
    moment a file is picked until its refinement has come back, so in every
    state the session can reach at most one refinement is running, and
    [isUploading] is set while one is. *)
Theorem upload_single_flight (w : World) :
  reachable w ->
  List.length (refinements w) <= 1
  /\ (refinements w <> [] -> isUploading w = true)
  /\ (isUploading w = true ->
        forall f d n, enabled w (Upload f d n) = false).
Proof.
  intros R.
  assert (H : List.length (refinements w) <= 1
              /\ (refinements w <> [] -> isUploading w = true)).
  { induction R as [|w e R [L U] En]; [split; [cbn; lia|intros N; now contradiction N]|].
    destruct (step_app w e) as (_ & _ & _ & _ & -> & ->).
    destruct e; handlers;
      try (split; [break; exact L|break; exact U]).
    - (* Upload *)
      cbn in En. apply negb_true_iff in En.
      assert (E : refinements w = []).
      { destruct (refinements w) as [|x t]; [reflexivity|].
        rewrite U in En; discriminate. }
      cbn [refinements isUploading set_refinements set_identities set_isUploading].
      rewrite E. cbn [app List.length]. split; [lia|reflexivity].
    - (* RefineDone *)
      destruct (refinements w) as [|x [|y t]] eqn:E; [| |cbn in L; lia].
      + destruct k; cbn; rewrite ?E; split; auto.
      + destruct k as [|k]; cbn.
        * destruct x. cbn. split; [lia|intros N; now contradiction N].
        * destruct k; cbn; rewrite ?E; split; auto.
    - (* Tick *)
      destruct (interval w) as [c|]; [|split; assumption].
      destruct (processFrame_uploads c w) as [-> ->]. split; assumption. }
  destruct H as [L U]. split; [exact L|]. split; [exact U|].
  intros B f d n. cbn. now rewrite B.
Qed.

Lemma upload_single_flight_witness :
  let w := step init (Upload "face.png" "data:image/png;base64,AAAA" 1700000000000) in
  List.length (refinements w) = 1
  /\ enabled w (Upload "other.png" "data:image/png;base64,BBBB" 1700000000001) = false.
Proof.
  assert (R : reachable (step init (Upload "face.png" "data:image/png;base64,AAAA"
                                           1700000000000)))
    by (apply reach_step; [apply reach_init|reflexivity]).
  destruct (upload_single_flight R) as (_ & U & D).
  split; [reflexivity|]. apply D. apply U. discriminate.
Defined.

(* ------------------------------------------------------------------ *)
(** ** What is on screen *)

Lemma find_active_spec ids i x :
  find (isActive (Some i)) ids = Some x -> In x ids /\ id x = i.
Proof.
  intros H. apply find_some in H as [Hin Hx]. split; [exact Hin|].
  cbn in Hx. now apply String.eqb_eq.
Qed.

(** In every state the session can reach the selection names an identity
    of the list: with no selection the target label reads None Selected;
    with a selection there is an identity with that id, the label shows
    its name, its image is what the feed is given, and the cards drawn as
    active are exactly the identities with the selected id. *)
Theorem selection_is_shown (w : World) :
  reachable w ->
  (activeIdentityId w = None ->
     targetLabel (appView w) = "None Selected" /\ activeIdentityUrl w = None)
  /\ (forall i, activeIdentityId w = Some i ->
        exists x, In x (identities w) /\ id x = i
                  /\ targetLabel (appView w) = name x
                  /\ activeIdentityUrl w = Some (imageUrl x))
  /\ (forall x, In (x, true) (cards (appView w)) <->
        In x (identities w) /\ activeIdentityId w = Some (id x)).
Proof.
  intros R. pose proof (pre_active (inv_pre (reachable_inv R))) as L.
  split; [|split].
  - intros E. unfold appView, activeIdentityUrl, activeIdentity. cbn [targetLabel].
    rewrite E. assert (F : find (isActive None) (identities w) = None)
      by (clear; now induction (identities w)).
    now rewrite F.
  - intros i E. destruct (listed_active w L E) as [x Hx].
    exists x. unfold activeIdentity in Hx. rewrite E in Hx.
    destruct (find_active_spec _ _ Hx) as [Hin Hid].
    unfold appView, activeIdentityUrl, activeIdentity. cbn [targetLabel].
    rewrite E, Hx. auto.
  - intros x. unfold appView. cbn [cards]. rewrite in_map_iff. split.
    + intros (y & Ey & Hy). injection Ey as -> A. split; [exact Hy|].
      destruct (activeIdentityId w) as [i|]; [|discriminate]. cbn in A.
      apply String.eqb_eq in A. now rewrite A.
    + intros [Hx E]. exists x. split; [|exact Hx]. rewrite E. cbn.
      now rewrite String.eqb_refl.
Qed.

Lemma selection_is_shown_witness :
  exists x, id x = "2"
            /\ targetLabel (appView (run init [ClickCard "2"])) = name x.
Proof.
  assert (R : reachable (run init [ClickCard "2"]))
    by (apply reachable_run; [apply reach_init|reflexivity]).
  destruct (proj1 (proj2 (selection_is_shown R)) "2" eq_refl)
    as (x & _ & E & T & _).
  exists x. exact (conj E T).
Defined.

(** What the feed shows in a state the session can reach.  The swapped
    image on screen is the swapped frame of the state, whenever one is
    held, and the spinner shows exactly when the status is SWAPPING and
    none is held.  The re-syncing badge shows only while a request is in
    flight, the synced badge only while none is, never both.  The status
    dot is green exactly when the video element is rendered, and the
    notice that the camera is disabled exactly when it is not. *)
Theorem feed_view_consistent (w : World) (isFaceDetected : bool) :
  reachable w ->
  let v := feedView isFaceDetected w in
  overlay v =
    match swappedFrame w with
    | Some s => Some (SwappedImage s)
    | None => if status_eqb (cameraStatus w) SWAPPING then Some Spinner else None
    end
  /\ (resyncBadge v = true -> outstanding w <> [])
  /\ (syncedBadge v = true -> outstanding w = [] /\ swappedFrame w <> None)
  /\ (resyncBadge v && syncedBadge v = false)
  /\ statusDotGreen v = video v
  /\ disabledNotice v = negb (video v).
Proof.
  intros R v. pose proof (reachable_inv R) as I.
  pose proof (pre_flight (inv_pre I)) as F. unfold singleFlight in F.
  pose proof (pre_truthy (inv_pre I)) as T. unfold anchorTruthy in T.
  pose proof (pre_loading (inv_pre I)) as N.
  unfold v, feedView, cameraFeed. cbn. split; [|split; [|split; [|split; [|split]]]].
  - destruct (swappedFrame w) as [s|] eqn:E.
    + assert (A : armed (swapDeps w) = true) by (apply inv_anchor; [exact I|congruence]).
      destruct (armed_inv _ A) as [St _]. cbn [d_status swapDeps] in St.
      rewrite St. cbn [status_eqb]. now rewrite T.
    + reflexivity.
  - intros H. apply andb_true_iff in H as [_ H]. apply andb_true_iff in H as [B _].
    rewrite B in F. now destruct (outstanding w) as [|q [|q' t]].
  - intros H. apply andb_true_iff in H as [_ H]. apply andb_true_iff in H as [Tr B].
    apply negb_true_iff in B. rewrite B in F. split.
    + now destruct (outstanding w) as [|q [|q' t]].
    + intros E. rewrite E in Tr. discriminate.
  - destruct (status_eqb _ SWAPPING), (isProcessing w), (truthy (swappedFrame w)); reflexivity.
  - destruct (cameraStatus w); try reflexivity. contradiction.
  - now rewrite negb_involutive.
Qed.

Lemma feed_view_consistent_witness :
  overlay (feedView true (run init toSynced))
  = Some (SwappedImage "data:image/png;base64,XXXX")
  /\ resyncBadge (feedView true (run init toSynced)) = true.
Proof.
  destruct (@feed_view_consistent (run init toSynced) true toSynced_reachable)
    as (O & _).
  split; [exact O|reflexivity].
Defined.

(** The render after the selection went away leaves no target. *)
Lemma deselect_clears_target w e i :
  Inv w -> activeIdentityId w = Some i ->
  activeIdentityId (handle e w) = None ->
  identityBase64 (step w e) = None.
Proof.
  intros I Ai E.
  destruct (listed_active w (pre_active (inv_pre I)) Ai) as [x Hx].
  assert (U : activeIdentityUrl (handle e w) = None).
  { unfold activeIdentityUrl, activeIdentity. rewrite E. cbn.
    clear. now induction (identities _). }
  assert (D : depUrl (handle e w) <> None).
  { destruct (handle_deps e w) as [-> _].
    destruct I as [S _]. unfold settled in S.
    apply andb_true_iff in S as [S _]. apply andb_true_iff in S as [S _].
    destruct (option_string_eqb_spec (activeIdentityUrl w) (depUrl w)) as [<-|]; [|discriminate].
    unfold activeIdentityUrl. rewrite Hx. discriminate. }
  unfold step. destruct (settle_core (handle e w)) as (-> & _). cbn zeta.
  rewrite settled_split. unfold appSynced. rewrite U.
  destruct (depUrl (handle e w)) as [u|] eqn:Du; [|contradiction].
  cbn [option_string_eqb andb]. apply pass_deselected; [exact U|congruence].
Qed.

(** Deselecting the active identity while the status is SWAPPING leaves
    the status at SWAPPING: the feed shows the spinner, with no target and
    no swapped frame, and the persona button reads STOP SWAP but is
    disabled, so that clicking it does nothing; the status changes again
    only through the power button or after an identity is selected. *)
Theorem deselect_while_swapping_locks_button
    (w : World) (i : string) (isFaceDetected : bool) :
  reachable w -> cameraStatus w = SWAPPING -> activeIdentityId w = Some i ->
  let w' := step w (ClickCard i) in
  cameraStatus w' = SWAPPING
  /\ activeIdentityId w' = None
  /\ identityBase64 w' = None /\ swappedFrame w' = None
  /\ overlay (feedView isFaceDetected w') = Some Spinner
  /\ swapLabel (appView w') = "STOP SWAP"
  /\ swapButtonDisabled (appView w') = true
  /\ step w' ClickSwap = w'.
Proof.
  intros R St Ai w'. pose proof (reachable_inv R) as I.
  assert (En : enabled w (ClickCard i) = true).
  { pose proof (pre_active (inv_pre I)) as L. unfold activeListed in L.
    now rewrite Ai in L. }
  assert (R' : reachable w') by (now apply reach_step).
  pose proof (reachable_inv R') as I'.
  assert (Ha : activeIdentityId (handle (ClickCard i) w) = None).
  { cbn. rewrite Ai. cbn. now rewrite String.eqb_refl. }
  destruct (step_app w (ClickCard i)) as (_ & A' & S' & _). fold w' in A', S'.
  rewrite Ha in A'. change (cameraStatus w' = cameraStatus w) in S'. rewrite St in S'.
  assert (T : identityBase64 w' = None) by (apply (deselect_clears_target (ClickCard i) I Ai Ha)).
  assert (F : swappedFrame w' = None).
  { apply (inv_idle I'). unfold armed. cbn [d_identityBase64 swapDeps].
    rewrite T. apply andb_false_r. }
  assert (D : swapDisabled w' = true) by (unfold swapDisabled; rewrite A'; apply orb_true_r).
  split; [exact S'|]. split; [exact A'|]. split; [exact T|]. split; [exact F|].
  split; [|split; [|split]].
  - unfold feedView, cameraFeed. cbn [overlay]. now rewrite S', F.
  - unfold appView. cbn [swapLabel]. now rewrite S'.
  - exact D.
  - unfold step, handle, clickSwap. rewrite D. apply settle_fixed, I'.
Qed.

Lemma deselect_while_swapping_locks_button_witness :
  let w' := step (run init toSynced) (ClickCard "1") in
  cameraStatus w' = SWAPPING /\ step w' ClickSwap = w'.
Proof.
  destruct (@deselect_while_swapping_locks_button (run init toSynced) "1" true
              toSynced_reachable eq_refl eq_refl) as (S & _ & _ & _ & _ & _ & _ & K).
  exact (conj S K).
Defined.

(* ------------------------------------------------------------------ *)
(** ** The camera *)

Lemma inv_deps w :
  Inv w ->
  depUrl w = activeIdentityUrl w /\ depStatus w = cameraStatus w
  /\ depSwap w = swapDeps w.
Proof.
  intros [S _]. unfold settled in S.
  apply andb_true_iff in S as [S Sd]. apply andb_true_iff in S as [Su Ss].
  destruct (option_string_eqb_spec (activeIdentityUrl w) (depUrl w)); [|discriminate].
  destruct (status_eqb_spec (cameraStatus w) (depStatus w)); [|discriminate].
  destruct (swapDeps_eqb_spec (swapDeps w) (depSwap w)); [|discriminate]. auto.
Qed.

(** The render after the status alone changed: the target and the image
    loads stay; a status other than INACTIVE asks for the camera once more
    and keeps the stream, INACTIVE drops the stream. *)
Lemma pass_status_changed w :
  option_string_eqb (activeIdentityUrl w) (depUrl w) = true ->
  status_eqb (cameraStatus w) (depStatus w) = false ->
  identityBase64 (pass w) = identityBase64 w
  /\ imageLoads (pass w) = imageLoads w
  /\ cameraRequests (pass w) =
       (if status_eqb (cameraStatus w) INACTIVE then cameraRequests w
        else S (cameraRequests w))
  /\ stream (pass w) =
       (if status_eqb (cameraStatus w) INACTIVE then None else stream w).
Proof.
  intros Hu Hs. unfold pass. rewrite Hu, Hs.
  cbn [identityBase64 imageLoads cameraRequests stream set_deps].
  set (w2 := cameraEffect (cameraStatus w) w).
  assert (H2 : identityBase64 w2 = identityBase64 w
               /\ imageLoads w2 = imageLoads w
               /\ cameraRequests w2 =
                    (if status_eqb (cameraStatus w) INACTIVE then cameraRequests w
                     else S (cameraRequests w))
               /\ stream w2 =
                    (if status_eqb (cameraStatus w) INACTIVE then None else stream w)).
  { unfold w2, cameraEffect. destruct (status_eqb (cameraStatus w) INACTIVE); cbn; auto. }
  destruct (swapDeps_eqb _ _); [exact H2|].
  destruct (swapEffect_core (swapDeps w) w2) as (-> & -> & -> & ->). exact H2.
Qed.

(** The camera is asked for again at every change of status that does
    not end at INACTIVE: switching the persona on or off, with the camera
    already running, starts one more acquisition and keeps the stream. *)
Theorem persona_toggle_reacquires_camera (w : World) :
  reachable w -> swapDisabled w = false ->
  let w' := step w ClickSwap in
  cameraStatus w' <> cameraStatus w
  /\ cameraStatus w' <> INACTIVE
  /\ cameraRequests w' = S (cameraRequests w)
  /\ stream w' = stream w.
Proof.
  intros R D w'. pose proof (reachable_inv R) as I.
  destruct (inv_deps I) as (Du & Ds & _).
  pose proof (pre_loading (inv_pre I)) as NL.
  unfold swapDisabled in D. apply orb_false_iff in D as [D1 D2].
  set (h := handle ClickSwap w).
  assert (Eh : h = set_cameraStatus
                     (match cameraStatus w with SWAPPING => ACTIVE | _ => SWAPPING end) w).
  { unfold h, handle, clickSwap, swapDisabled. rewrite D1, D2. cbn [orb].
    unfold toggleSwap. destruct (cameraStatus w); try reflexivity. discriminate. }
  assert (Hs : status_eqb (cameraStatus h) (depStatus h) = false).
  { rewrite Eh. cbn [cameraStatus depStatus set_cameraStatus]. rewrite Ds.
    now destruct (cameraStatus w). }
  assert (Hu : option_string_eqb (activeIdentityUrl h) (depUrl h) = true).
  { rewrite Eh. change (option_string_eqb (activeIdentityUrl w) (depUrl w) = true).
    rewrite Du. apply option_string_eqb_refl. }
  assert (Ns : settled h = false).
  { unfold settled. rewrite Hs. now rewrite andb_false_r. }
  assert (Ni : status_eqb (cameraStatus h) INACTIVE = false).
  { rewrite Eh. cbn. now destruct (cameraStatus w). }
  destruct (pass_status_changed h Hu Hs) as (_ & _ & C & T). rewrite Ni in C, T.
  destruct (settle_core h) as (_ & T' & C' & _). rewrite Ns in T', C'. cbn zeta in T', C'.
  destruct (step_app w ClickSwap) as (_ & _ & S' & _). fold h w' in S'.
  split; [|split; [|split]].
  - rewrite S', Eh. cbn. now destruct (cameraStatus w).
  - rewrite S'. intros E. rewrite E in Ni. discriminate.
  - unfold w', step. fold h. now rewrite C', C, Eh.
  - unfold w', step. fold h. now rewrite T', T, Eh.
Qed.

Lemma persona_toggle_reacquires_camera_witness :
  let w := run init [ClickPower; CameraDone (Some 0); ClickCard "1"] in
  cameraRequests w = 0 /\ stream w = Some 0
  /\ cameraRequests (step w ClickSwap) = 1 /\ stream (step w ClickSwap) = Some 0.
Proof.
  assert (R : reachable (run init [ClickPower; CameraDone (Some 0); ClickCard "1"]))
    by (apply reachable_run; [apply reach_init|reflexivity]).
  destruct (persona_toggle_reacquires_camera R eq_refl) as (_ & _ & C & T).
  split; [reflexivity|]. split; [reflexivity|]. exact (conj C T).
Defined.

Lemma pass_not_swapping w :
  cameraStatus w <> SWAPPING ->
  outstanding (pass w) = outstanding w /\ isProcessing (pass w) = isProcessing w.
Proof.
  intros N. unfold pass.
  set (w1 := if option_string_eqb _ _ then w else _).
  set (w2 := if status_eqb _ _ then w1 else _).
  assert (F1 : outstanding w1 = outstanding w /\ isProcessing w1 = isProcessing w).
  { unfold w1. destruct (option_string_eqb _ _); [auto|apply identityEffect_flight]. }
  assert (F2 : outstanding w2 = outstanding w /\ isProcessing w2 = isProcessing w).
  { unfold w2. destruct (status_eqb _ _); [exact F1|].
    destruct (cameraEffect_flight (cameraStatus w) w1) as [-> ->]. exact F1. }
  destruct (swapDeps_eqb _ _); cbn [outstanding isProcessing set_deps]; [exact F2|].
  unfold swapEffect. cbn [d_status swapDeps].
  destruct (status_eqb_spec (cameraStatus w) SWAPPING); [contradiction|exact F2].
Qed.

Lemma settleN_not_swapping n w :
  cameraStatus w <> SWAPPING ->
  outstanding (settleN n w) = outstanding w
  /\ isProcessing (settleN n w) = isProcessing w.
Proof.
  revert w. induction n as [|n IH]; intros w N; cbn [settleN]; [auto|].
  destruct (settled w); [auto|].
  destruct (pass_not_swapping w N) as [O P].
  destruct (IH (pass w)) as [-> ->]; [|auto].
  now destruct (pass_app w) as (_ & _ & -> & _).
Qed.

(** Shutting down with the power button: the status is INACTIVE, the
    stream, the swapped frame and the interval are gone, and the feed shows
    the notice instead of the video.  The identities, the selection and the
    resolved target are kept.  Nothing is cancelled: a swap request in
    flight and camera acquisitions not yet answered stay as they are. *)
Theorem shutdown_resets_feed (w : World) (isFaceDetected : bool) :
  reachable w -> cameraStatus w <> INACTIVE ->
  let w' := step w ClickPower in
  cameraStatus w' = INACTIVE
  /\ stream w' = None /\ swappedFrame w' = None /\ interval w' = None
  /\ disabledNotice (feedView isFaceDetected w') = true
  /\ video (feedView isFaceDetected w') = false
  /\ identities w' = identities w /\ activeIdentityId w' = activeIdentityId w
  /\ identityBase64 w' = identityBase64 w
  /\ outstanding w' = outstanding w /\ isProcessing w' = isProcessing w
  /\ cameraRequests w' = cameraRequests w.
Proof.
  intros R N w'. pose proof (reachable_inv R) as I.
  destruct (inv_deps I) as (Du & Ds & _).
  assert (R' : reachable w') by (apply reach_step; [exact R|reflexivity]).
  set (h := handle ClickPower w).
  assert (Eh : h = set_cameraStatus INACTIVE w).
  { unfold h, handle, toggleCamera. destruct (cameraStatus w); try reflexivity.
    contradiction. }
  assert (Hs : status_eqb (cameraStatus h) (depStatus h) = false).
  { rewrite Eh. cbn [cameraStatus depStatus set_cameraStatus]. rewrite Ds.
    destruct (cameraStatus w); try reflexivity. contradiction. }
  assert (Hu : option_string_eqb (activeIdentityUrl h) (depUrl h) = true).
  { rewrite Eh. change (option_string_eqb (activeIdentityUrl w) (depUrl w) = true).
    rewrite Du. apply option_string_eqb_refl. }
  assert (Ns : settled h = false).
  { unfold settled. rewrite Hs. now rewrite andb_false_r. }
  destruct (pass_status_changed h Hu Hs) as (B & _ & C & T).
  destruct (settle_core h) as (B' & T' & C' & _). rewrite Ns in B', T', C'.
  cbn zeta in B', T', C'.
  destruct (step_app w ClickPower) as (Hi & Ha & S' & _). fold h w' in Hi, Ha, S'.
  assert (St : cameraStatus w' = INACTIVE) by (rewrite S', Eh; reflexivity).
  destruct (settleN_not_swapping 4 h) as [O P]; [rewrite Eh; discriminate|].
  destruct (inv_idle (reachable_inv R')) as [F V].
  { unfold armed. cbn [d_status swapDeps]. now rewrite St. }
  split; [exact St|]. split.
  { unfold w', step. fold h. rewrite T', T, Eh. reflexivity. }
  split; [exact F|]. split; [exact V|].
  split; [unfold feedView, cameraFeed; cbn [disabledNotice]; now rewrite St|].
  split; [unfold feedView, cameraFeed; cbn [video]; now rewrite St|].
  split; [now rewrite Hi, Eh|]. split; [now rewrite Ha, Eh|].
  split; [unfold w', step; fold h; now rewrite B', B, Eh|].
  split; [unfold w', step, settle; fold h; now rewrite O, Eh|].
  split; [unfold w', step, settle; fold h; now rewrite P, Eh|].
  unfold w', step. fold h. rewrite C', C, Eh. reflexivity.
Qed.

Lemma shutdown_resets_feed_witness :
  let w := run init toSynced in
  stream w = Some 0 /\ List.length (outstanding w) = 1
  /\ stream (step w ClickPower) = None
  /\ swappedFrame (step w ClickPower) = None
  /\ outstanding (step w ClickPower) = outstanding w.
Proof.
  assert (N : cameraStatus (run init toSynced) <> INACTIVE) by (vm_compute; discriminate).
  destruct (@shutdown_resets_feed (run init toSynced) true toSynced_reachable N)
    as (_ & T & F & _ & _ & _ & _ & _ & _ & O & _).
  split; [reflexivity|]. split; [reflexivity|]. exact (conj T (conj F O)).
Defined.

(** An answer of the camera is taken whatever the status is by then: the
    stream of a successful acquisition is stored, a failure leaves the
    stream as it was, and the status is not touched.  After a shutdown
    this stores a stream while the status is INACTIVE and no video element
    is rendered. *)
Theorem camera_answer_stored
    (w : World) (n : nat) (r : option nat) (isFaceDetected : bool) :
  reachable w -> cameraRequests w = S n ->
  let w' := step w (CameraDone r) in
  cameraRequests w' = n
  /\ stream w' = match r with Some s => Some s | None => stream w end
  /\ cameraStatus w' = cameraStatus w
  /\ (cameraStatus w = INACTIVE -> video (feedView isFaceDetected w') = false).
Proof.
  intros R C w'. pose proof (reachable_inv R) as I.
  assert (E : w' = cameraSettled r w).
  { unfold w', step, handle. apply settle_fixed. unfold cameraSettled. rewrite C.
    transitivity (settled w); [now destruct r|apply I]. }
  rewrite E. unfold cameraSettled. rewrite C.
  split; [now destruct r|]. split; [now destruct r|]. split; [now destruct r|].
  intros St. unfold feedView, cameraFeed. cbn [video].
  replace (cameraStatus _) with INACTIVE by (now destruct r). reflexivity.
Qed.

Lemma camera_answer_stored_witness :
  let w := run init [ClickPower; ClickPower] in
  cameraStatus w = INACTIVE
  /\ stream (step w (CameraDone (Some 5))) = Some 5
  /\ cameraStatus (step w (CameraDone (Some 5))) = INACTIVE.
Proof.
  assert (R : reachable (run init [ClickPower; ClickPower]))
    by (apply reachable_run; [apply reach_init|reflexivity]).
  destruct (@camera_answer_stored (run init [ClickPower; ClickPower]) 0 (Some 5) true
              R eq_refl) as (_ & T & S & _).
  split; [reflexivity|]. exact (conj T S).
Defined.

(* ------------------------------------------------------------------ *)
(** ** Resolving the target *)

(** An image load that ends sets the target, whatever is selected by
    then: to the JPEG data URI of the drawn image, or to the url itself
    when there is no 2d context or the image failed to load; the selection
    is left as it is. *)
Theorem image_load_sets_target
    (w : World) (k : nat) (url : string) (o : ImageOutcome) :
  reachable w -> nth_error (imageLoads w) k = Some url ->
  let w' := step w (ImageDone k o) in
  identityBase64 w' = Some (imageResolves url o)
  /\ imageLoads w' = dropNth k (imageLoads w)
  /\ activeIdentityId w' = activeIdentityId w.
Proof.
  intros R E w'. pose proof (reachable_inv R) as I.
  set (h := handle (ImageDone k o) w).
  assert (Eh : h = set_identityBase64 (Some (imageResolves url o))
                     (set_imageLoads (dropNth k (imageLoads w)) w)).
  { unfold h, handle. now rewrite E. }
  assert (S : appSynced h = true) by (rewrite Eh; exact (inv_appSynced I)).
  destruct (settle_core h) as (B & _ & _ & L). cbn zeta in B, L.
  destruct (pass_core h S) as (B1 & _ & _ & L1).
  destruct (step_app w (ImageDone k o)) as (_ & Ha & _). fold h w' in Ha.
  split; [|split].
  - unfold w', step. fold h. rewrite B. destruct (settled h); [|rewrite B1]; now rewrite Eh.
  - unfold w', step. fold h. rewrite L. destruct (settled h); [|rewrite L1]; now rewrite Eh.
  - now rewrite Ha, Eh.
Qed.

Lemma image_load_sets_target_witness :
  let w := run init [ClickCard "1"; ClickCard "1"] in
  activeIdentityId w = None
  /\ identityBase64 (step w (ImageDone 0 Failed)) =
       Some "https://images.unsplash.com/photo-1560250097-0b93528c311a?auto=format&fit=crop&q=80&w=400&h=400".
Proof.
  assert (R : reachable (run init [ClickCard "1"; ClickCard "1"]))
    by (apply reachable_run; [apply reach_init|reflexivity]).
  destruct (@image_load_sets_target (run init [ClickCard "1"; ClickCard "1"]) 0
              "https://images.unsplash.com/photo-1560250097-0b93528c311a?auto=format&fit=crop&q=80&w=400&h=400"
              Failed R eq_refl) as (B & _).
  split; [reflexivity|exact B].
Defined.

(** Selecting an identity when none is selected: an identity whose image
    is a data URI (an uploaded face) becomes the target at once, with no
    image load; for any other non-empty url one image load is started and
    the target stays as it is until the load ends. *)
Theorem selection_resolves_target (w : World) (i : string) (x : Identity) :
  reachable w -> activeIdentityId w = None ->
  find (isActive (Some i)) (identities w) = Some x ->
  imageUrl x <> "" ->
  let w' := step w (ClickCard i) in
  activeIdentityId w' = Some i
  /\ (startsWith "data:" (imageUrl x) = true ->
        identityBase64 w' = Some (imageUrl x) /\ imageLoads w' = imageLoads w)
  /\ (startsWith "data:" (imageUrl x) = false ->
        identityBase64 w' = identityBase64 w
        /\ imageLoads w' = imageLoads w ++ [imageUrl x]).
Proof.
  intros R A Fx Nx w'. pose proof (reachable_inv R) as I.
  destruct (inv_deps I) as (Du & Ds & _).
  set (h := handle (ClickCard i) w).
  assert (Eh : h = set_activeIdentityId (Some i) w).
  { unfold h, handle, handleIdentitySelect. now rewrite A. }
  assert (U : activeIdentityUrl h = Some (imageUrl x)).
  { rewrite Eh. unfold activeIdentityUrl, activeIdentity.
    cbn [activeIdentityId identities set_activeIdentityId]. now rewrite Fx. }
  assert (D : depUrl h = None).
  { rewrite Eh. cbn [depUrl set_activeIdentityId]. rewrite Du.
    unfold activeIdentityUrl, activeIdentity. rewrite A.
    assert (F : find (isActive None) (identities w) = None)
      by (clear; now induction (identities w)).
    now rewrite F. }
  assert (Ns : settled h = false) by (unfold settled; now rewrite U, D).
  assert (Tr : truthy (Some (imageUrl x)) = true) by (now destruct (imageUrl x)).
  assert (Hs : status_eqb (cameraStatus h) (depStatus h) = true).
  { rewrite Eh. cbn [cameraStatus depStatus set_activeIdentityId]. rewrite Ds.
    apply status_eqb_refl. }
  assert (P : identityBase64 (pass h) = identityBase64 (identityEffect (Some (imageUrl x)) h)
              /\ imageLoads (pass h) = imageLoads (identityEffect (Some (imageUrl x)) h)).
  { unfold pass. rewrite U, D, Hs. cbn [option_string_eqb].
    cbn [identityBase64 imageLoads set_deps].
    destruct (swapDeps_eqb _ _); [auto|].
    now destruct (swapEffect_core (swapDeps h) (identityEffect (Some (imageUrl x)) h))
      as (-> & _ & _ & ->). }
  destruct P as [P1 P2].
  destruct (settle_core h) as (B & _ & _ & L). rewrite Ns in B, L. cbn zeta in B, L.
  destruct (step_app w (ClickCard i)) as (_ & Ha & _). fold h w' in Ha.
  split; [now rewrite Ha, Eh|].
  unfold w', step. fold h. rewrite B, L, P1, P2. unfold identityEffect, urlToBase64.
  rewrite Tr. split; intros E; rewrite E; now rewrite Eh.
Qed.

Lemma selection_resolves_target_witness :
  let w := run init [Upload "face.png" "data:image/png;base64,AAAA" 1700000000000] in
  identityBase64 w = None
  /\ identityBase64 (step w (ClickCard "1700000000000")) = Some "data:image/png;base64,AAAA"
  /\ imageLoads (step w (ClickCard "2")) =
       ["https://images.unsplash.com/photo-1573496359142-b8d87734a5a2?auto=format&fit=crop&q=80&w=400&h=400"].
Proof.
  assert (R : reachable (run init [Upload "face.png" "data:image/png;base64,AAAA"
                                          1700000000000]))
    by (apply reachable_run; [apply reach_init|reflexivity]).
  split; [reflexivity|]. split.
  - refine (proj1 (proj1 (proj2 (@selection_resolves_target _ "1700000000000"
                                   {| id := "1700000000000"; name := "face";
                                      imageUrl := "data:image/png;base64,AAAA";
                                      embeddingStatus := processing |}
                                   R eq_refl eq_refl _)) eq_refl)).
    discriminate.
  - refine (proj2 (proj2 (proj2 (@selection_resolves_target _ "2"
                                   (nth 1 INITIAL_IDENTITIES
                                        {| id := ""; name := ""; imageUrl := "";
                                           embeddingStatus := error |})
                                   R eq_refl eq_refl _)) eq_refl)).
    discriminate.
Defined.

(* ------------------------------------------------------------------ *)
(** ** Entering the loop *)

(** Switching the persona on with a resolved target, nothing in flight
    and a frame to capture: the effect does not wait for the interval, it
    sends the first request in the render that follows the click, built
    from the frame and the target and without an anchor, sets
    [isProcessing] and installs the interval; no swapped frame is held
    yet. *)
Theorem activation_sends_first_request (w : World) (source target : string) :
  reachable w ->
  cameraStatus w = ACTIVE ->
  truthy (activeIdentityId w) = true ->
  identityBase64 w = Some target -> target <> "" ->
  isProcessing w = false ->
  canvas2d w = Some source ->
  let w' := step w ClickSwap in
  cameraStatus w' = SWAPPING
  /\ outstanding w' = [swapRequest source target None]
  /\ isProcessing w' = true
  /\ swappedFrame w' = None
  /\ interval w' <> None.
Proof.
  intros R St Ta ET Nt P C w'. pose proof (reachable_inv R) as I.
  destruct (inv_deps I) as (Du & Ds & Dd).
  assert (Tr : truthy (Some target) = true) by (now destruct target).
  assert (O : outstanding w = []).
  { pose proof (pre_flight (inv_pre I)) as F. unfold singleFlight in F. rewrite P in F.
    now destruct (outstanding w) as [|q [|q' t]]. }
  assert (F : swappedFrame w = None).
  { apply (inv_idle I). unfold armed. cbn [d_status swapDeps]. now rewrite St. }
  set (h := handle ClickSwap w).
  assert (Eh : h = set_cameraStatus SWAPPING w).
  { unfold h, handle, clickSwap, swapDisabled, toggleSwap. now rewrite St, Ta. }
  set (c := swapDeps h).
  assert (Ac : armed c = true).
  { unfold c, armed. rewrite Eh. cbn. now rewrite ET, Tr. }
  set (w2 := set_cameraRequests (S (cameraRequests h)) h).
  assert (Ep : pass h =
               set_deps (activeIdentityUrl h) (cameraStatus h) c
                 (set_interval (Some c)
                    (set_outstanding [swapRequest source target None]
                       (set_isProcessing true w2)))).
  { unfold pass. fold c.
    replace (option_string_eqb (activeIdentityUrl h) (depUrl h)) with true
      by (rewrite Eh; change (true = option_string_eqb (activeIdentityUrl w) (depUrl w));
          rewrite Du; symmetry; apply option_string_eqb_refl).
    replace (status_eqb (cameraStatus h) (depStatus h)) with false
      by (rewrite Eh; cbn [cameraStatus depStatus set_cameraStatus]; now rewrite Ds, St).
    replace (swapDeps_eqb c (depSwap h)) with false.
    2:{ symmetry. destruct (swapDeps_eqb_spec c (depSwap h)) as [E|]; [|reflexivity].
        apply (f_equal d_status) in E. unfold c in E. rewrite Eh in E.
        cbn [depSwap set_cameraStatus] in E. rewrite Dd in E. cbn in E. congruence. }
    unfold cameraEffect.
    replace (status_eqb (cameraStatus h) INACTIVE) with false by (now rewrite Eh).
    cbn [negb]. fold w2. unfold swapEffect. fold (armed c). rewrite Ac.
    rewrite processFrame_dispatch with (source := source) (target := target).
    - unfold c at 3. unfold w2. rewrite Eh.
      cbn [d_swappedFrame swapDeps swappedFrame outstanding set_cameraStatus
           set_cameraRequests].
      now rewrite O, F.
    - exact Ac.
    - unfold c. now rewrite Eh.
    - unfold w2. now rewrite Eh.
    - unfold w2. now rewrite Eh.
    - unfold c. now rewrite Eh. }
  assert (Ns : settled h = false).
  { unfold settled.
    replace (status_eqb (cameraStatus h) (depStatus h)) with false
      by (rewrite Eh; cbn [cameraStatus depStatus set_cameraStatus]; now rewrite Ds, St).
    now rewrite andb_false_r. }
  assert (Ew : w' = settleN 3 (pass h)).
  { unfold w', step. fold h. rewrite settle_unfold. now rewrite Ns. }
  destruct (settleN_inert 3 (pass h)) as [O' D'].
  - apply pass_appSynced.
  - rewrite Ep. exact Ac.
  - left. now rewrite Ep.
  - assert (R' : reachable w') by (apply reach_step; [exact R|reflexivity]).
    pose proof (inv_interval (reachable_inv R')) as V.
    assert (Sp : swapDeps (pass h) =
                 {| d_status := SWAPPING; d_identityBase64 := Some target;
                    d_swappedFrame := None; d_isProcessing := true |}).
    { rewrite Ep. unfold w2. rewrite Eh. unfold swapDeps. cbn. now rewrite ET, F. }
    assert (Op : outstanding (pass h) = [swapRequest source target None])
      by (now rewrite Ep).
    rewrite Sp in D'. rewrite Op in O'. rewrite Ew in *.
    split; [exact (f_equal d_status D')|]. split; [exact O'|].
    split; [exact (f_equal d_isProcessing D')|].
    split; [exact (f_equal d_swappedFrame D')|].
    rewrite V, D'. unfold armed. cbn [d_status d_identityBase64 status_eqb andb].
    rewrite Tr. discriminate.
Qed.

Lemma activation_sends_first_request_witness :
  let w := run init [ClickPower; ClickCard "1";
                     ImageDone 0 (Loaded (Some "data:image/jpeg;base64,AAAA"));
                     Frame (Some "data:image/jpeg;base64,SRC1")] in
  outstanding w = []
  /\ map parts (outstanding (step w ClickSwap)) =
       [ [ InlineData "SRC1" "image/jpeg"; InlineData "AAAA" "image/jpeg";
           Text (instruction false) ] ].
Proof.
  assert (R : reachable (run init [ClickPower; ClickCard "1";
                     ImageDone 0 (Loaded (Some "data:image/jpeg;base64,AAAA"));
                     Frame (Some "data:image/jpeg;base64,SRC1")]))
    by (apply reachable_run; [apply reach_init|reflexivity]).
  assert (N : "data:image/jpeg;base64,AAAA" <> "") by discriminate.
  destruct (@activation_sends_first_request _ "data:image/jpeg;base64,SRC1"
              "data:image/jpeg;base64,AAAA" R eq_refl eq_refl eq_refl N eq_refl eq_refl)
    as (_ & O & _).
  split; [reflexivity|]. rewrite O. reflexivity.
Defined.

(* ------------------------------------------------------------------ *)
(** ** Uploading a face *)

(** An uploaded file is kept as its whole data URI for display, and sent
    for refinement without the envelope: the new identity holds the data
    URI as [imageUrl], with status processing and the file name up to its
    first dot as name, while the refinement queued for it carries the
    payload that follows the comma, tagged [image/jpeg], after the
    instruction text. *)
Theorem upload_strips_envelope
    (w : World) (fileName prefix payload : string) (now : N) :
  includes "," prefix = false -> includes "," payload = false ->
  let base64Data := (prefix ++ String "," payload)%string in
  let w' := step w (Upload fileName base64Data now) in
  identities w' =
    identities w ++
      [ {| id := toString now; name := nth 0 (split "." fileName) "";
           imageUrl := base64Data; embeddingStatus := processing |} ]
  /\ includes "." (nth 0 (split "." fileName) "") = false
  /\ refinements w' =
       refinements w ++
         [ (toString now,
            {| model := "gemini-3-flash-preview";
               parts :=
                 [ Text "Enhance this identity for a professional virtual camera output. Map facial features for real-time overlay.";
                   InlineData payload "image/jpeg" ];
               systemInstruction :=
                 Some "You are a face restoration expert. Describe the lighting and anatomical features clearly for a mapping engine." |}) ]
  /\ isUploading w' = true.
Proof.
  intros Hp Hq base64Data w'.
  destruct (step_app w (Upload fileName base64Data now)) as (Hi & _ & _ & _ & Hu & Hr).
  fold w' in Hi, Hu, Hr.
  assert (E : nth 1 (split "," base64Data) "" = payload).
  { unfold base64Data. rewrite split_at_first by assumption.
    now rewrite split_without by assumption. }
  split; [exact Hi|]. split.
  - destruct (includes "." (nth 0 (split "." fileName) "")) eqn:N; [|reflexivity].
    apply nth_split_no_sep in N. discriminate.
  - split; [|exact Hu]. rewrite Hr.
    change (refinements (handle (Upload fileName base64Data now) w))
      with (refinements w ++
              [(toString now,
                refineRequest (nth 1 (split "," base64Data) "")
                              "Map facial features for real-time overlay.")]).
    now rewrite E.
Qed.

Lemma upload_strips_envelope_witness :
  let w' := step init (Upload "my.face.png" "data:image/png;base64,AAAA" 1700000000000) in
  map name (identities w') = ["Executive Professional"; "Creative Director"; "my"]
  /\ map (fun q => parts (snd q)) (refinements w') =
       [ [ Text "Enhance this identity for a professional virtual camera output. Map facial features for real-time overlay.";
           InlineData "AAAA" "image/jpeg" ] ].
Proof.
  destruct (@upload_strips_envelope init "my.face.png" "data:image/png;base64" "AAAA"
              1700000000000 eq_refl eq_refl) as (I & _ & Q & _).
  split.
  - exact (f_equal (map name) I).
  - exact (f_equal (map (fun q => parts (snd q))) Q).
Defined.
